(** * QuestFlow: the quest optimization engine

    A shallow embedding of the reward model (models/queue.ts), the EV
    calculator (models/ev-calculator.ts) and the plan optimizer
    (models/plan-optimizer.ts), with the properties of the engine proved
    over it.

    Numbers.  Every JavaScript [number] of the engine is modelled as an
    exact rational ([Q]): sums, products, quotients, [Math.pow] with a
    natural exponent, [Math.ceil], [Math.round], [Math.min] and [Math.max]
    are the exact operations, and [===] on numbers is [Qeq_bool].  Rounding
    of IEEE doubles is outside the model.  Equality of results is stated with
    [==] (the same rational), since one rational has several fractions. *)

From Stdlib Require Import QArith Qround Qminmax Qpower Lqa.
From Stdlib Require Import ZArith String Ascii Bool Lia Arith List.
From Stdlib Require Import Permutation Sorted.
Import ListNotations.

Local Open Scope Q_scope.

(** ** JavaScript arithmetic on exact rationals *)

Abbreviation number := Q (only parsing).

Definition Math_pow (base : number) (exponent : nat) : number :=
  base ^ Z.of_nat exponent.

Definition Math_ceil (x : number) : number := inject_Z (Qceiling x).

(** [Math.round] rounds half-way cases up. *)
Definition Math_round (x : number) : number := inject_Z (Qfloor (x + (1 # 2))).

Definition Math_min (a b : number) : number := if Qle_bool a b then a else b.
Definition Math_max (a b : number) : number := if Qle_bool a b then b else a.

(** [a < b], [a > b] as the booleans the conditions of the code test. *)
Definition Qlt_bool (a b : number) : bool := negb (Qle_bool b a).
Definition Qgt_bool (a b : number) : bool := negb (Qle_bool a b).

(** ** models/queue.ts: the reward model *)

Inductive QueueType : Type :=
| STANDARD_BO1
| STANDARD_BO3
| HISTORIC_BO1
| HISTORIC_BO3
| QUICK_DRAFT
| PREMIER_DRAFT
| TRADITIONAL_DRAFT
| MIDWEEK_MAGIC
| ALCHEMY_BO1
| EXPLORER_BO1.

(** The string value of each enum member. *)
Definition queueTypeValue (q : QueueType) : string :=
  match q with
  | STANDARD_BO1 => "standard_bo1"
  | STANDARD_BO3 => "standard_bo3"
  | HISTORIC_BO1 => "historic_bo1"
  | HISTORIC_BO3 => "historic_bo3"
  | QUICK_DRAFT => "quick_draft"
  | PREMIER_DRAFT => "premier_draft"
  | TRADITIONAL_DRAFT => "traditional_draft"
  | MIDWEEK_MAGIC => "midweek_magic"
  | ALCHEMY_BO1 => "alchemy_bo1"
  | EXPLORER_BO1 => "explorer_bo1"
  end%string.

Definition QueueType_eqb (a b : QueueType) : bool :=
  String.eqb (queueTypeValue a) (queueTypeValue b).

Inductive QuestType : Type := WIN | CAST | PLAY_COLORS.

Record QuestMultiplier : Type := mkQuestMultiplier {
  win : number;
  cast : number;
  play_colors : number
}.

Record QueueRewards : Type := mkQueueRewards {
  entryFee : number;
  winRewards : list number;
  gemRewards : option (list number);
  packRewards : option (list number);
  averageGameLength : number;
  questMultiplier : QuestMultiplier
}.

Definition constructedBo1 (minutes : number) (m : QuestMultiplier) : QueueRewards :=
  mkQueueRewards 0 [0; 25; 50; 100; 150; 200; 250] None None minutes m.

Definition QUEUE_REWARDS (q : QueueType) : QueueRewards :=
  match q with
  | STANDARD_BO1 => constructedBo1 8 (mkQuestMultiplier 1 1 1)
  | STANDARD_BO3 =>
      mkQueueRewards 0 [0; 100; 200; 300] None None 20
        (mkQuestMultiplier 2 (5 # 2) (5 # 2))
  | HISTORIC_BO1 => constructedBo1 7 (mkQuestMultiplier 1 1 1)
  | HISTORIC_BO3 =>
      mkQueueRewards 0 [0; 100; 200; 300] None None 18
        (mkQuestMultiplier 2 (5 # 2) (5 # 2))
  | QUICK_DRAFT =>
      mkQueueRewards 5000
        [50; 100; 200; 300; 450; 650; 950; 1200]
        (Some [0; 50; 100; 200; 300; 450; 650; 950])
        (Some [1; 1; 2; 2; 3; 4; 5; 6])
        12 (mkQuestMultiplier 1 (4 # 5) (6 # 5))
  | PREMIER_DRAFT =>
      mkQueueRewards 10000
        [0; 1000; 1500; 1700; 1900; 2100; 2200; 2500]
        (Some [50; 250; 400; 600; 800; 1000; 1200; 1600])
        (Some [1; 1; 2; 2; 3; 4; 5; 6])
        15 (mkQuestMultiplier 1 (4 # 5) (6 # 5))
  | TRADITIONAL_DRAFT =>
      mkQueueRewards 10000
        [0; 3000; 6000]
        (Some [0; 1000; 3000])
        (Some [1; 4; 6])
        35 (mkQuestMultiplier 2 (5 # 2) (5 # 2))
  | MIDWEEK_MAGIC =>
      mkQueueRewards 0 [0; 250; 400; 500] None None 10
        (mkQuestMultiplier 1 (3 # 2) (3 # 2))
  | ALCHEMY_BO1 => constructedBo1 9 (mkQuestMultiplier 1 (6 # 5) 1)
  | EXPLORER_BO1 => constructedBo1 8 (mkQuestMultiplier 1 1 1)
  end.

(** [QUEUE_REWARDS[queueType] || null]: the record has an entry for every
    member of the enum. *)
Definition getQueueRewards (queueType : QueueType) : option QueueRewards :=
  Some (QUEUE_REWARDS queueType).

Definition getQueueRewardsWithFallback (queueType : QueueType) : QueueRewards :=
  match getQueueRewards queueType with
  | Some rewards => rewards
  | None => QUEUE_REWARDS STANDARD_BO1
  end.

(** [Object.values(QueueType)], in declaration order. *)
Definition getAllQueueTypes : list QueueType :=
  [STANDARD_BO1; STANDARD_BO3; HISTORIC_BO1; HISTORIC_BO3; QUICK_DRAFT;
   PREMIER_DRAFT; TRADITIONAL_DRAFT; MIDWEEK_MAGIC; ALCHEMY_BO1; EXPLORER_BO1].

(** [rewards[i]] on an array of numbers; the loops below never index out of
    range, where JavaScript would give [undefined]. *)
Definition at_index (rewards : list number) (i : nat) : number := nth i rewards 0.

(** The stand-alone expectation of the reward model: the loop runs over
    [wins < length - 1], the maximum is added after it. *)
Definition calculateExpectedGoldReward (queueType : QueueType) (winRate : number)
  : number :=
  let rewards := getQueueRewardsWithFallback queueType in
  let winRewards := winRewards rewards in
  if Nat.eqb (length winRewards) 0 then 0
  else
    let expectedReward :=
      fold_left
        (fun expectedReward wins =>
           let probabilityOfExactlyNWins :=
             if Nat.eqb wins 0 then 1 - winRate
             else Math_pow winRate wins * (1 - winRate) in
           expectedReward + probabilityOfExactlyNWins * at_index winRewards wins)
        (seq 0 (length winRewards - 1)) 0 in
    if Nat.ltb 1 (length winRewards) then
      let maxWins := (length winRewards - 1)%nat in
      let probabilityOfMaxWins := Math_pow winRate maxWins in
      expectedReward + probabilityOfMaxWins * at_index winRewards maxWins
    else expectedReward.

(** ** models/ev-calculator.ts: expected value of a queue *)

Record EVResult : Type := mkEVResult {
  expectedValue : number;
  expectedGold : number;
  expectedGems : number;
  expectedPacks : number;
  entryCost : number;
  netValue : number;
  evPerMinute : number
}.

Definition calculateExpectedReward (rewards : list number) (winRate : number)
  : number :=
  if Nat.eqb (length rewards) 0 then 0
  else if Qeq_bool winRate 0 then at_index rewards 0
  else if Qeq_bool winRate 1 then at_index rewards (length rewards - 1)
  else
    fold_left
      (fun expectedReward wins =>
         let probability :=
           if Nat.eqb wins 0 then 1 - winRate
           else if Nat.eqb wins (length rewards - 1) then Math_pow winRate wins
           else Math_pow winRate wins * (1 - winRate) in
         expectedReward + probability * at_index rewards wins)
      (seq 0 (length rewards)) 0.

Definition calculateQueueEV (queueType : QueueType) (winRate : number) : EVResult :=
  let rewards := getQueueRewardsWithFallback queueType in
  let expectedGold := calculateExpectedReward (winRewards rewards) winRate in
  let expectedGems :=
    match gemRewards rewards with
    | Some gems => calculateExpectedReward gems winRate
    | None => 0
    end in
  let expectedPacks :=
    match packRewards rewards with
    | Some packs => calculateExpectedReward packs winRate
    | None => 0
    end in
  let goldEquivalent := expectedGold + (expectedGems * 5) + (expectedPacks * 1000) in
  let netValue := goldEquivalent - entryFee rewards in
  let evPerMinute := netValue / averageGameLength rewards in
  mkEVResult goldEquivalent expectedGold expectedGems expectedPacks
    (entryFee rewards) netValue evPerMinute.

(** The win-streak expectation as the specification words it: stop at
    exactly [wins < n] with probability [(1 - p)] for [wins = 0] and
    [p^wins * (1 - p)] otherwise, reach the maximum index [n] with
    probability [p^n]. *)
Definition stoppingProbability (p : number) (wins : nat) : number :=
  if Nat.eqb wins 0 then 1 - p else Math_pow p wins * (1 - p).

Fixpoint sumOver (f : nat -> number) (n : nat) : number :=
  match n with
  | O => 0
  | S k => sumOver f k + f k
  end.

Definition winStreakExpectation (R : list number) (p : number) : number :=
  let n := (length R - 1)%nat in
  sumOver (fun wins => at_index R wins * stoppingProbability p wins) n
  + Math_pow p n * at_index R n.

(** ** models/quest.ts and the quest progress rate of the EV calculator *)

Module Quest.
Record t : Type := mk {
  id : string;
  type : QuestType;
  description : string;
  remaining : number;
  expiresInDays : number;
  colors : option (list string);
  createdAt : Z;
  updatedAt : Z
}.
End Quest.

(** A number that may be [Infinity]. *)
Inductive extended : Type :=
| Finite (x : number)
| Infinity.

(** [e <= bound] for a finite [bound]. *)
Definition extended_le (e : extended) (bound : number) : bool :=
  match e with
  | Finite x => Qle_bool x bound
  | Infinity => false
  end.

Record QuestProgressResult : Type := mkQuestProgressResult {
  progressPerGame : number;
  estimatedGamesToComplete : extended;
  estimatedMinutesToComplete : extended
}.

(** [rewards.questMultiplier[quest.type]]. *)
Definition multiplierOf (m : QuestMultiplier) (t : QuestType) : number :=
  match t with
  | WIN => win m
  | CAST => cast m
  | PLAY_COLORS => play_colors m
  end.

Definition calculateQuestProgressRate
  (quest : Quest.t) (queueType : QueueType) (winRate : number)
  : QuestProgressResult :=
  let rewards := getQueueRewardsWithFallback queueType in
  let multiplier := multiplierOf (questMultiplier rewards) (Quest.type quest) in
  let baseProgressPerGame :=
    match Quest.type quest with
    | WIN => winRate * multiplier
    | CAST => 10 * multiplier
    | PLAY_COLORS => 1 * multiplier
    end in
  let progressPerGame := Math_min baseProgressPerGame (Quest.remaining quest) in
  let estimatedGamesToComplete :=
    if Qeq_bool (Quest.remaining quest) 0 then Finite 0
    else if Qgt_bool progressPerGame 0
         then Finite (Math_ceil (Quest.remaining quest / progressPerGame))
         else Infinity in
  let estimatedMinutesToComplete :=
    if Qeq_bool (Quest.remaining quest) 0 then Finite 0
    else match estimatedGamesToComplete with
         | Infinity => Infinity
         | Finite games => Finite (games * averageGameLength rewards)
         end in
  mkQuestProgressResult progressPerGame estimatedGamesToComplete
    estimatedMinutesToComplete.

Record QuestCompletion : Type := mkQuestCompletion {
  canComplete : bool;
  completionMinutes : extended;
  completionGames : extended;
  completionProgressPerGame : number;
  timeRemaining : number
}.

Definition estimateQuestCompletion
  (quest : Quest.t) (queueType : QueueType) (winRate timeBudgetMinutes : number)
  : QuestCompletion :=
  let progressResult := calculateQuestProgressRate quest queueType winRate in
  let canComplete :=
    extended_le (estimatedMinutesToComplete progressResult) timeBudgetMinutes in
  let timeRemaining :=
    match estimatedMinutesToComplete progressResult with
    | Finite minutes => Math_max 0 (timeBudgetMinutes - minutes)
    | Infinity => 0
    end in
  mkQuestCompletion canComplete
    (estimatedMinutesToComplete progressResult)
    (estimatedGamesToComplete progressResult)
    (progressPerGame progressResult)
    timeRemaining.

(** ** The two effects of the optimizer: [uuidv4()] and [new Date()]

    Both read the outside world.  The world is an explicit state: the
    identifiers the generator will hand out, the instants the clock will
    show, and how many of each were consumed. *)

Record World : Type := mkWorld {
  uuidSource : nat -> string;
  uuidsDrawn : nat;
  clockSource : nat -> Z;
  clockReads : nat
}.

Definition Eff (A : Type) : Type := World -> A * World.

Definition ret {A} (a : A) : Eff A := fun w => (a, w).

Definition bind {A B} (m : Eff A) (k : A -> Eff B) : Eff B :=
  fun w => let (a, w') := m w in k a w'.

Notation "'let*' x ':=' m 'in' k" := (bind m (fun x => k))
  (at level 10, x name, m at level 100, k at level 200).

Definition uuidv4 : Eff string :=
  fun w => (uuidSource w (uuidsDrawn w),
            mkWorld (uuidSource w) (S (uuidsDrawn w)) (clockSource w) (clockReads w)).

Definition newDate : Eff Z :=
  fun w => (clockSource w (clockReads w),
            mkWorld (uuidSource w) (uuidsDrawn w) (clockSource w) (S (clockReads w))).

(** ** [Map<string, number>] and [Set<string>], in insertion order *)

Module JsMap.
Definition t : Type := list (string * number).

Definition empty : t := [].

Fixpoint get (m : t) (k : string) : option number :=
  match m with
  | [] => None
  | (k', v) :: rest => if String.eqb k' k then Some v else get rest k
  end.

(** An existing key keeps its place, a new key goes to the end. *)
Fixpoint set (m : t) (k : string) (v : number) : t :=
  match m with
  | [] => [(k, v)]
  | (k', v') :: rest =>
      if String.eqb k' k then (k', v) :: rest else (k', v') :: set rest k v
  end.

Definition size (m : t) : nat := length m.

(** [m.get(k) || 0]. *)
Definition getOr0 (m : t) (k : string) : number :=
  match get m k with
  | Some v => v
  | None => 0
  end.
End JsMap.

Module JsSet.
Definition t : Type := list string.

Definition empty : t := [].

Definition has (s : t) (k : string) : bool := existsb (String.eqb k) s.

Definition add (s : t) (k : string) : t := if has s k then s else s ++ [k].

Definition size (s : t) : nat := length s.
End JsSet.

(** ** models/queue.ts and models/plan.ts: plan steps and plans *)

Record QuestProgress : Type := mkQuestProgress {
  questId : string;
  progressAmount : number
}.

Record Rewards : Type := mkRewards {
  gold : number;
  gems : number;
  packs : number
}.

Module PlanStep.
Record t : Type := mk {
  id : string;
  queue : QueueType;
  targetGames : number;
  estimatedMinutes : number;
  expectedRewards : Rewards;
  questProgress : list QuestProgress;
  completed : bool
}.
End PlanStep.

Module OptimizedPlan.
Record t : Type := mk {
  id : string;
  steps : list PlanStep.t;
  totalEstimatedMinutes : number;
  totalExpectedRewards : Rewards;
  questsCompleted : list string;
  timeBudget : number;
  winRate : number;
  createdAt : Z;
  updatedAt : Z
}.
End OptimizedPlan.

(** ** models/plan-optimizer.ts *)

Record UserSettings : Type := mkUserSettings {
  defaultWinRate : number;
  preferredQueues : list QueueType;
  minutesPerGame : number
}.

Module QueueOption.
Record progress : Type := mkProgress {
  questId : string;
  progressAmount : number;
  estimatedGamesToComplete : extended
}.

Record t : Type := mk {
  queueType : QueueType;
  ev : EVResult;
  questCompletionBonus : number;
  questProgress : list progress;
  estimatedMinutes : number;
  canCompleteInBudget : bool;
  priority : number
}.
End QueueOption.

(** The failing checks of a schema, in the order zod reports them: the path
    of the value and the kind of check.  zod's message texts are its own. *)
Inductive PathSegment : Type :=
| Key (k : string)
| Index (i : nat).

Inductive IssueCode : Type := invalid_string | too_small | too_big.

Record ZodIssue : Type := mkZodIssue {
  path : list PathSegment;
  code : IssueCode
}.

(** The [error] string of a result: either the text zod's issues are
    rendered to ([path: message] joined by commas), or a literal. *)
Inductive ErrorText : Type :=
| ValidationMessage (issues : list ZodIssue)
| Message (s : string).

(** The [warnings] of a result: the three templates of [generateWarnings]
    with the number they interpolate, or a literal. *)
Inductive Warning : Type :=
| CannotBeCompleted (count : nat)
| ExpireWithin24Hours (count : nat)
| UnusedTime (minutes : number)
| Notice (s : string).

Record OptimizationResult : Type := mkOptimizationResult {
  success : bool;
  plan : option OptimizedPlan.t;
  error : option ErrorText;
  warnings : option (list Warning)
}.

Definition createDefaultSettings : UserSettings :=
  mkUserSettings (1 # 2) [STANDARD_BO1; HISTORIC_BO1; QUICK_DRAFT] 8.

(** [z.number().min(lo).max(hi)] at [path]. *)
Definition checkRange (p : list PathSegment) (lo hi x : number) : list ZodIssue :=
  if Qlt_bool x lo then [mkZodIssue p too_small]
  else if Qgt_bool x hi then [mkZodIssue p too_big]
  else [].

(** [z.number().min(lo)] at [path]. *)
Definition checkMin (p : list PathSegment) (lo x : number) : list ZodIssue :=
  if Qlt_bool x lo then [mkZodIssue p too_small] else [].

Section Optimizer.

(** zod's [string().uuid()] test; the pattern belongs to the library. *)
Variable isUuid : string -> bool.

Definition questIssues (i : nat) (quest : Quest.t) : list ZodIssue :=
  (if isUuid (Quest.id quest) then []
   else [mkZodIssue [Key "quests"; Index i; Key "id"] invalid_string])
  ++ checkMin [Key "quests"; Index i; Key "remaining"] 0 (Quest.remaining quest)
  ++ checkMin [Key "quests"; Index i; Key "expiresInDays"] 0
       (Quest.expiresInDays quest).

Fixpoint questsIssues (i : nat) (quests : list Quest.t) : list ZodIssue :=
  match quests with
  | [] => []
  | quest :: rest => questIssues i quest ++ questsIssues (S i) rest
  end.

Definition settingsIssues (settings : option UserSettings) : list ZodIssue :=
  match settings with
  | None => []
  | Some s =>
      checkRange [Key "settings"; Key "defaultWinRate"] (3 # 10) (8 # 10)
        (defaultWinRate s)
      ++ checkRange [Key "settings"; Key "minutesPerGame"] 1 60 (minutesPerGame s)
  end.

(** [OptimizationInputSchema.parse]: quest types, queue types and dates are
    well-formed by their types here. *)
Definition OptimizationInputSchema_issues
  (quests : list Quest.t) (timeBudget winRate : number)
  (settings : option UserSettings) : list ZodIssue :=
  questsIssues 0 quests
  ++ checkRange [Key "timeBudget"] 15 180 timeBudget
  ++ checkRange [Key "winRate"] (3 # 10) (8 # 10) winRate
  ++ settingsIssues settings.

Definition validateOptimizationInput
  (quests : list Quest.t) (timeBudget winRate : number)
  (settings : option UserSettings) : bool * option ErrorText :=
  match OptimizationInputSchema_issues quests timeBudget winRate settings with
  | [] => (true, None)
  | issues => (false, Some (ValidationMessage issues))
  end.

End Optimizer.

Definition availableQueuesOf (preferred : list QueueType) : list QueueType :=
  if Nat.ltb 0 (length preferred) then preferred else getAllQueueTypes.

Definition canQuestBeCompletedInTime
  (quest : Quest.t) (timeBudget winRate : number) (preferredQueues : list QueueType)
  : bool :=
  let queuesToCheck := availableQueuesOf preferredQueues in
  existsb
    (fun queueType =>
       canComplete (estimateQuestCompletion quest queueType winRate timeBudget))
    queuesToCheck.

(** The accumulators of the loop over the quests in [evaluateQueueOption]. *)
Record QuestScan : Type := mkQuestScan {
  questProgressData : list QueueOption.progress;
  totalQuestBonus : number;
  urgencyMultiplier : number
}.

Definition scanQuest
  (queueType : QueueType) (questProgress : JsMap.t) (completedQuests : JsSet.t)
  (winRate : number) (acc : QuestScan) (quest : Quest.t) : QuestScan :=
  if JsSet.has completedQuests (Quest.id quest) then acc
  else
    let remaining := JsMap.getOr0 questProgress (Quest.id quest) in
    if Qle_bool remaining 0 then acc
    else
      let progressResult := calculateQuestProgressRate quest queueType winRate in
      if Qgt_bool (progressPerGame progressResult) 0 then
        let progressAmount := Math_min (progressPerGame progressResult) remaining in
        let questCompletionValue := 500 in
        let progressRatio := progressAmount / remaining in
        mkQuestScan
          (questProgressData acc ++
             [QueueOption.mkProgress (Quest.id quest) progressAmount
                (estimatedGamesToComplete progressResult)])
          (totalQuestBonus acc + questCompletionValue * progressRatio)
          (if Qle_bool (Quest.expiresInDays quest) 1
           then Math_max (urgencyMultiplier acc) 2
           else if Qle_bool (Quest.expiresInDays quest) 2
                then Math_max (urgencyMultiplier acc) (3 # 2)
                else urgencyMultiplier acc)
      else acc.

Definition estimatedGamesFor (remainingTime averageGameLength : number) : number :=
  Math_max 1 (Math_min 3 (Math_ceil (remainingTime / averageGameLength / 2))).

Definition evaluateQueueOption
  (queueType : QueueType) (quests : list Quest.t)
  (questProgress : JsMap.t) (completedQuests : JsSet.t)
  (remainingTime winRate : number) : option QueueOption.t :=
  let rewards := getQueueRewardsWithFallback queueType in
  let scan :=
    fold_left (scanQuest queueType questProgress completedQuests winRate)
      quests (mkQuestScan [] 0 1) in
  let queueEV := calculateQueueEV queueType winRate in
  let estimatedGames := estimatedGamesFor remainingTime (averageGameLength rewards) in
  let estimatedMinutes := estimatedGames * averageGameLength rewards in
  if Qgt_bool estimatedMinutes remainingTime then None
  else
    let totalEV := (netValue queueEV * estimatedGames) + totalQuestBonus scan in
    let evPerMinute := totalEV / estimatedMinutes in
    let priority := evPerMinute * urgencyMultiplier scan in
    Some (QueueOption.mk queueType queueEV
            (totalQuestBonus scan / estimatedGames)
            (questProgressData scan)
            estimatedMinutes
            (Qle_bool estimatedMinutes remainingTime)
            priority).

(** [bestPriority] starts at [-Infinity], written [None]. *)
Definition aboveBest (p : number) (bestPriority : option number) : bool :=
  match bestPriority with
  | None => true
  | Some best => Qgt_bool p best
  end.

Definition considerQueue
  (quests : list Quest.t) (questProgress : JsMap.t) (completedQuests : JsSet.t)
  (remainingTime winRate : number)
  (best : option QueueOption.t * option number) (queueType : QueueType)
  : option QueueOption.t * option number :=
  match evaluateQueueOption queueType quests questProgress completedQuests
          remainingTime winRate with
  | Some option =>
      if QueueOption.canCompleteInBudget option
         && aboveBest (QueueOption.priority option) (snd best)
      then (Some option, Some (QueueOption.priority option))
      else best
  | None => best
  end.

Definition findBestQueueOption
  (quests : list Quest.t) (questProgress : JsMap.t) (completedQuests : JsSet.t)
  (remainingTime winRate : number) (settings : UserSettings)
  : option QueueOption.t :=
  let availableQueues := availableQueuesOf (preferredQueues settings) in
  fst (fold_left
         (considerQueue quests questProgress completedQuests remainingTime winRate)
         availableQueues (None, None)).

Definition createPlanStep
  (option : QueueOption.t) (questProgress : JsMap.t) (completedQuests : JsSet.t)
  : Eff PlanStep.t :=
  let rewards := getQueueRewardsWithFallback (QueueOption.queueType option) in
  let estimatedGames :=
    Math_ceil (QueueOption.estimatedMinutes option / averageGameLength rewards) in
  let expectedRewards :=
    mkRewards
      (Math_round (expectedGold (QueueOption.ev option) * estimatedGames))
      (Math_round (expectedGems (QueueOption.ev option) * estimatedGames))
      (Math_round (expectedPacks (QueueOption.ev option) * estimatedGames)) in
  let* id := uuidv4 in
  ret (PlanStep.mk id
         (QueueOption.queueType option)
         estimatedGames
         (QueueOption.estimatedMinutes option)
         expectedRewards
         (map (fun progress =>
                 mkQuestProgress (QueueOption.questId progress)
                   (Math_min (QueueOption.progressAmount progress * estimatedGames)
                      (JsMap.getOr0 questProgress (QueueOption.questId progress))))
              (QueueOption.questProgress option))
         false).

(** The variables of [generateOptimizedPlan] that the greedy loop updates. *)
Record LoopState : Type := mkLoopState {
  steps : list PlanStep.t;
  remainingTime : number;
  questProgress : JsMap.t;
  completedQuests : JsSet.t
}.

(** The body of [bestOption.questProgress.forEach]. *)
Definition recordProgress
  (tracked : JsMap.t * JsSet.t) (progress : QueueOption.progress)
  : JsMap.t * JsSet.t :=
  let currentProgress := JsMap.getOr0 (fst tracked) (QueueOption.questId progress) in
  let newProgress := Math_max 0 (currentProgress - QueueOption.progressAmount progress) in
  let questProgress := JsMap.set (fst tracked) (QueueOption.questId progress) newProgress in
  if Qeq_bool newProgress 0
  then (questProgress, JsSet.add (snd tracked) (QueueOption.questId progress))
  else (questProgress, snd tracked).

Definition loopCondition (st : LoopState) : bool :=
  Qgt_bool (remainingTime st) 0
  && Nat.ltb (JsSet.size (completedQuests st)) (JsMap.size (questProgress st)).

(** The [while] loop.  [fuel] bounds the number of iterations; [None] means
    the bound was reached with the loop still running. *)
Fixpoint greedyLoop
  (fuel : nat) (quests : list Quest.t) (winRate : number) (settings : UserSettings)
  (st : LoopState) (w : World) : option (LoopState * World) :=
  if loopCondition st then
    match fuel with
    | O => None
    | S fuel' =>
        match findBestQueueOption quests (questProgress st) (completedQuests st)
                (remainingTime st) winRate settings with
        | None => Some (st, w)
        | Some bestOption =>
            if Qgt_bool (QueueOption.estimatedMinutes bestOption) (remainingTime st)
            then Some (st, w)
            else
              let (step, w') :=
                createPlanStep bestOption (questProgress st) (completedQuests st) w in
              let tracked :=
                fold_left recordProgress (QueueOption.questProgress bestOption)
                  (questProgress st, completedQuests st) in
              greedyLoop fuel' quests winRate settings
                (mkLoopState
                   (steps st ++ [step])
                   (remainingTime st - QueueOption.estimatedMinutes bestOption)
                   (fst tracked) (snd tracked))
                w'
        end
    end
  else Some (st, w).

(** Iterations that are always enough: every step takes a whole game or
    more, and no game is shorter than a minute. *)
Definition loopFuel (timeBudget : number) : nat := Z.to_nat (Qceiling timeBudget).

Definition initialState (quests : list Quest.t) (timeBudget : number) : LoopState :=
  mkLoopState []
    timeBudget
    (fold_left (fun questProgress quest =>
                  JsMap.set questProgress (Quest.id quest) (Quest.remaining quest))
       quests JsMap.empty)
    JsSet.empty.

Definition sumMinutes (steps : list PlanStep.t) : number :=
  fold_left (fun sum step => sum + PlanStep.estimatedMinutes step) steps 0.

Definition sumRewards (steps : list PlanStep.t) : Rewards :=
  fold_left
    (fun sum step =>
       mkRewards
         (gold sum + gold (PlanStep.expectedRewards step))
         (gems sum + gems (PlanStep.expectedRewards step))
         (packs sum + packs (PlanStep.expectedRewards step)))
    steps (mkRewards 0 0 0).

Definition generateOptimizedPlan
  (quests : list Quest.t) (timeBudget winRate : number) (settings : UserSettings)
  (w : World) : option (OptimizedPlan.t * World) :=
  match greedyLoop (loopFuel timeBudget) quests winRate settings
          (initialState quests timeBudget) w with
  | None => None
  | Some (st, w1) =>
      let totalEstimatedMinutes := sumMinutes (steps st) in
      let totalExpectedRewards := sumRewards (steps st) in
      let (id, w2) := uuidv4 w1 in
      let (createdAt, w3) := newDate w2 in
      let (updatedAt, w4) := newDate w3 in
      Some (OptimizedPlan.mk id (steps st) totalEstimatedMinutes totalExpectedRewards
              (completedQuests st) timeBudget winRate createdAt updatedAt,
            w4)
  end.

Definition generateWarnings
  (allQuests feasibleQuests : list Quest.t) (plan : OptimizedPlan.t) : list Warning :=
  let infeasibleQuests :=
    filter (fun quest =>
              negb (existsb (fun fq => String.eqb (Quest.id fq) (Quest.id quest))
                      feasibleQuests)
              && Qgt_bool (Quest.remaining quest) 0)
      allQuests in
  let expiringQuests :=
    filter (fun quest =>
              Qle_bool (Quest.expiresInDays quest) 1
              && Qgt_bool (Quest.remaining quest) 0)
      allQuests in
  let unusedTime :=
    OptimizedPlan.timeBudget plan - OptimizedPlan.totalEstimatedMinutes plan in
  (if Nat.ltb 0 (length infeasibleQuests)
   then [CannotBeCompleted (length infeasibleQuests)] else [])
  ++ (if Nat.ltb 0 (length expiringQuests)
      then [ExpireWithin24Hours (length expiringQuests)] else [])
  ++ (if Qgt_bool unusedTime 15 then [UnusedTime unusedTime] else []).

(** [settings || { defaultWinRate: 0.5, preferredQueues: [...], minutesPerGame: 8 }]. *)
Definition settingsOrDefault (settings : option UserSettings) : UserSettings :=
  match settings with
  | Some s => s
  | None => mkUserSettings (1 # 2) [STANDARD_BO1; HISTORIC_BO1; QUICK_DRAFT] 8
  end.

Definition activeQuestsOf (quests : list Quest.t) : list Quest.t :=
  filter (fun quest => Qgt_bool (Quest.remaining quest) 0) quests.

Definition feasibleQuestsOf
  (activeQuests : list Quest.t) (timeBudget winRate : number)
  (userSettings : UserSettings) : list Quest.t :=
  filter (fun quest =>
            canQuestBeCompletedInTime quest timeBudget winRate
              (preferredQueues userSettings))
    activeQuests.

Section Entry.

Variable isUuid : string -> bool.

(** The body of the [try] block; nothing in it throws on the values of
    this model, so the [catch] branch is not reached.  [None] only if the
    greedy loop were cut by its iteration bound, which never happens
    ([optimizePlan_returns]). *)
Definition optimizePlan
  (quests : list Quest.t) (timeBudget winRate : number)
  (settings : option UserSettings) (w : World)
  : option (OptimizationResult * World) :=
  let validationResult :=
    validateOptimizationInput isUuid quests timeBudget winRate settings in
  if negb (fst validationResult) then
    Some (mkOptimizationResult false None
            (match snd validationResult with
             | Some e => Some e
             | None => Some (Message "Invalid optimization input")
             end)
            None, w)
  else
    let userSettings := settingsOrDefault settings in
    let activeQuests := activeQuestsOf quests in
    if Nat.eqb (length activeQuests) 0 then
      Some (mkOptimizationResult false None
              (Some (Message "No active quests to optimize"))
              (Some [Notice "All quests are already completed"]), w)
    else
      let feasibleQuests :=
        feasibleQuestsOf activeQuests timeBudget winRate userSettings in
      if Nat.eqb (length feasibleQuests) 0 then
        Some (mkOptimizationResult false None
                (Some (Message "Insufficient time to complete any quests"))
                (Some [Notice "Consider increasing time budget or adjusting win rate"]),
              w)
      else
        match generateOptimizedPlan feasibleQuests timeBudget winRate userSettings w with
        | None => None
        | Some (plan, w') =>
            Some (mkOptimizationResult true (Some plan) None
                    (Some (generateWarnings activeQuests feasibleQuests plan)), w')
        end.

Definition updatePlanProgress
  (plan : OptimizedPlan.t) (stepId : string) (completed : bool)
  : Eff OptimizedPlan.t :=
  let updatedSteps :=
    map (fun step =>
           if String.eqb (PlanStep.id step) stepId
           then PlanStep.mk (PlanStep.id step) (PlanStep.queue step)
                  (PlanStep.targetGames step) (PlanStep.estimatedMinutes step)
                  (PlanStep.expectedRewards step) (PlanStep.questProgress step)
                  completed
           else step)
      (OptimizedPlan.steps plan) in
  let* now := newDate in
  ret (OptimizedPlan.mk (OptimizedPlan.id plan) updatedSteps
         (OptimizedPlan.totalEstimatedMinutes plan)
         (OptimizedPlan.totalExpectedRewards plan)
         (OptimizedPlan.questsCompleted plan)
         (OptimizedPlan.timeBudget plan) (OptimizedPlan.winRate plan)
         (OptimizedPlan.createdAt plan) now).

(** [{ ...originalPlan, updatedAt: new Date() }]. *)
Definition touchPlan (plan : OptimizedPlan.t) : Eff OptimizedPlan.t :=
  let* now := newDate in
  ret (OptimizedPlan.mk (OptimizedPlan.id plan) (OptimizedPlan.steps plan)
         (OptimizedPlan.totalEstimatedMinutes plan)
         (OptimizedPlan.totalExpectedRewards plan)
         (OptimizedPlan.questsCompleted plan)
         (OptimizedPlan.timeBudget plan) (OptimizedPlan.winRate plan)
         (OptimizedPlan.createdAt plan) now).

Definition recalculatePlan
  (originalPlan : OptimizedPlan.t) (updatedQuests : list Quest.t)
  (settings : option UserSettings) (w : World)
  : option (OptimizationResult * World) :=
  let completedTime :=
    fold_left (fun sum step => sum + PlanStep.estimatedMinutes step)
      (filter PlanStep.completed (OptimizedPlan.steps originalPlan)) 0 in
  let remainingTime := OptimizedPlan.timeBudget originalPlan - completedTime in
  if Qle_bool remainingTime 0 then
    let (plan, w') := touchPlan originalPlan w in
    Some (mkOptimizationResult true (Some plan) None
            (Some [Notice "All allocated time has been used"]), w')
  else if Qlt_bool remainingTime 15 then
    let (plan, w') := touchPlan originalPlan w in
    Some (mkOptimizationResult true (Some plan) None
            (Some [Notice "Insufficient remaining time for additional optimization"]),
          w')
  else
    optimizePlan updatedQuests remainingTime (OptimizedPlan.winRate originalPlan)
      settings w.

End Entry.

(** ** Definitions used to state and prove the properties *)

(** The win-streak expectation in Horner form: lose now and keep [r], or
    win and go on with the rest of the array. *)
Fixpoint streak (R : list number) (p : number) : number :=
  match R with
  | [] => 0
  | r :: rest =>
      match rest with
      | [] => r
      | _ :: _ => (1 - p) * r + p * streak rest p
      end
  end.

Fixpoint nondecreasing (R : list number) : Prop :=
  match R with
  | [] => True
  | r :: rest =>
      match rest with
      | [] => True
      | r' :: _ => r <= r' /\ nondecreasing rest
      end
  end.

(** The sum of a list of numbers, term by term. *)
Fixpoint listSum (l : list number) : number :=
  match l with
  | [] => 0
  | x :: rest => x + listSum rest
  end.

(** The executions of the greedy loop, one constructor per way through its
    body: the condition fails, no option is found, the option found does
    not fit, or a step is emitted and the loop goes on. *)
Inductive Run (quests : list Quest.t) (winRate : number) (settings : UserSettings)
  : LoopState -> World -> LoopState -> World -> Prop :=
| Run_exit st w :
    loopCondition st = false ->
    Run quests winRate settings st w st w
| Run_none st w :
    loopCondition st = true ->
    findBestQueueOption quests (questProgress st) (completedQuests st)
      (remainingTime st) winRate settings = None ->
    Run quests winRate settings st w st w
| Run_over st w bestOption :
    loopCondition st = true ->
    findBestQueueOption quests (questProgress st) (completedQuests st)
      (remainingTime st) winRate settings = Some bestOption ->
    Qgt_bool (QueueOption.estimatedMinutes bestOption) (remainingTime st) = true ->
    Run quests winRate settings st w st w
| Run_step st w bestOption step w' st' w'' :
    loopCondition st = true ->
    findBestQueueOption quests (questProgress st) (completedQuests st)
      (remainingTime st) winRate settings = Some bestOption ->
    Qgt_bool (QueueOption.estimatedMinutes bestOption) (remainingTime st) = false ->
    createPlanStep bestOption (questProgress st) (completedQuests st) w = (step, w') ->
    Run quests winRate settings
      (mkLoopState
         (steps st ++ [step])
         (remainingTime st - QueueOption.estimatedMinutes bestOption)
         (fst (fold_left recordProgress (QueueOption.questProgress bestOption)
                 (questProgress st, completedQuests st)))
         (snd (fold_left recordProgress (QueueOption.questProgress bestOption)
                 (questProgress st, completedQuests st))))
      w' st' w'' ->
    Run quests winRate settings st w st' w''.

(** A bound on the number of steps the loop can still emit with [rt]
    minutes left: no game is shorter than 7 minutes, a step of fewer than 21
    minutes is only offered when at most 40 minutes are left, and such a step
    leaves fewer than 21. *)
Definition stepCap (rt : number) : nat :=
  if Qlt_bool rt 7 then 0
  else if Qlt_bool rt 14 then 1
  else if Qlt_bool rt 21 then 2
  else if Qle_bool rt 40 then 3
  else (3 + Z.to_nat (Qceiling ((rt - 40) / 21)))%nat.

(** A result without what the identifier generator and the clock put in
    it: the identifiers of the plan and of its steps, and the two dates. *)
Definition anonymousStep (step : PlanStep.t) : PlanStep.t :=
  PlanStep.mk "" (PlanStep.queue step) (PlanStep.targetGames step)
    (PlanStep.estimatedMinutes step) (PlanStep.expectedRewards step)
    (PlanStep.questProgress step) (PlanStep.completed step).

Definition anonymousPlan (plan : OptimizedPlan.t) : OptimizedPlan.t :=
  OptimizedPlan.mk "" (map anonymousStep (OptimizedPlan.steps plan))
    (OptimizedPlan.totalEstimatedMinutes plan)
    (OptimizedPlan.totalExpectedRewards plan)
    (OptimizedPlan.questsCompleted plan)
    (OptimizedPlan.timeBudget plan) (OptimizedPlan.winRate plan) 0 0.

Definition anonymousResult (r : OptimizationResult) : OptimizationResult :=
  mkOptimizationResult (success r) (option_map anonymousPlan (plan r))
    (error r) (warnings r).

Definition anonymousState (st : LoopState) : LoopState :=
  mkLoopState (map anonymousStep (steps st)) (remainingTime st)
    (questProgress st) (completedQuests st).

(** The state of the search of [findBestQueueOption] after the queues
    [seen]: nothing found and no queue had an option, or the option of the
    first queue among those of the highest priority. *)
Definition searched
  (quests : list Quest.t) (qp : JsMap.t) (cq : JsSet.t) (rt winRate : number)
  (seen : list QueueType) (best : option QueueOption.t * option number) : Prop :=
  match fst best with
  | None =>
      snd best = None
      /\ forall q, In q seen -> evaluateQueueOption q quests qp cq rt winRate = None
  | Some o =>
      snd best = Some (QueueOption.priority o)
      /\ exists pre q post,
           seen = pre ++ q :: post
           /\ evaluateQueueOption q quests qp cq rt winRate = Some o
           /\ (forall q' o', In q' pre ->
                 evaluateQueueOption q' quests qp cq rt winRate = Some o' ->
                 QueueOption.priority o' < QueueOption.priority o)
           /\ (forall q' o', In q' post ->
                 evaluateQueueOption q' quests qp cq rt winRate = Some o' ->
                 QueueOption.priority o' <= QueueOption.priority o)
  end.

(** ** Concrete inputs for the examples *)

Definition isHexDigit (c : ascii) : bool :=
  let n := nat_of_ascii c in
  ((48 <=? n) && (n <=? 57) || (97 <=? n) && (n <=? 102))%nat.

(** [n] hexadecimal digits, then the rest of the string. *)
Fixpoint hexDigits (n : nat) (s : string) : option string :=
  match n with
  | O => Some s
  | S n' =>
      match s with
      | String c s' => if isHexDigit c then hexDigits n' s' else None
      | EmptyString => None
      end
  end.

Definition afterHyphen (s : option string) : option string :=
  match s with
  | Some (String "-" s') => Some s'
  | _ => None
  end.

(** A stand-in for zod's uuid test in the examples: five groups of 8, 4, 4,
    4 and 12 hexadecimal digits between hyphens. *)
Definition uuidShaped (s : string) : bool :=
  match afterHyphen (hexDigits 8 s) with
  | Some s1 =>
      match afterHyphen (hexDigits 4 s1) with
      | Some s2 =>
          match afterHyphen (hexDigits 4 s2) with
          | Some s3 =>
              match afterHyphen (hexDigits 4 s3) with
              | Some s4 =>
                  match hexDigits 12 s4 with
                  | Some EmptyString => true
                  | _ => false
                  end
              | None => false
              end
          | None => false
          end
      | None => false
      end
  | None => false
  end.

Definition hexDigitOf (n : nat) : string :=
  nth n ["0"; "1"; "2"; "3"; "4"; "5"; "6"; "7"; "8"; "9";
         "a"; "b"; "c"; "d"; "e"]%string "f"%string.

(** A generator that hands out [seed000000-0000-4000-8000-00000000000n]. *)
Definition exampleUuid (seed n : nat) : string :=
  (hexDigitOf seed ++ "0000000-0000-4000-8000-00000000000" ++ hexDigitOf n)%string.

Definition exampleWorld : World :=
  mkWorld (exampleUuid 1) 0 (fun n => (1700000000000 + Z.of_nat n)%Z) 0.

Definition otherWorld : World :=
  mkWorld (exampleUuid 2) 0 (fun n => (1700000000000 + Z.of_nat n)%Z) 0.

(** The quests of the optimizer's tests. *)
Definition winQuest : Quest.t :=
  Quest.mk "123e4567-e89b-12d3-a456-426614174001" WIN "Win 5 games" 5 3 None
    1704067200000 1704067200000.

Definition castQuest : Quest.t :=
  Quest.mk "123e4567-e89b-12d3-a456-426614174002" CAST "Cast 20 spells" 20 2 None
    1704067200000 1704067200000.

Definition colorQuest : Quest.t :=
  Quest.mk "123e4567-e89b-12d3-a456-426614174003" PLAY_COLORS
    "Play red or green spells" 1 1 (Some ["R"; "G"]%string)
    1704067200000 1704067200000.

Definition mockQuests : list Quest.t := [winQuest; castQuest; colorQuest].

Definition doneQuest : Quest.t :=
  Quest.mk "123e4567-e89b-12d3-a456-426614174005" WIN "Win 3 games" 0 2 None
    1704067200000 1704067200000.

(** The plan [optimizePlan] returns for these quests with 60 minutes at a
    win rate of 0.6, and the same plan after every step was marked
    completed. *)
Definition sampleStep (n : nat) (progress : list QuestProgress) (done : bool)
  : PlanStep.t :=
  PlanStep.mk (exampleUuid 1 n) HISTORIC_BO1 3 21 (mkRewards 143 0 0) progress done.

Definition samplePlanWith (done : bool) (updatedAt : Z) : OptimizedPlan.t :=
  OptimizedPlan.mk (exampleUuid 1 2)
    [sampleStep 0 [mkQuestProgress (Quest.id castQuest) 20;
                   mkQuestProgress (Quest.id colorQuest) 1] done;
     sampleStep 1 [mkQuestProgress (Quest.id castQuest) 10] done]
    42 (mkRewards 286 0 0)
    [Quest.id colorQuest; Quest.id castQuest]
    60 (6 # 10) 1700000000000 updatedAt.

Definition samplePlan : OptimizedPlan.t := samplePlanWith false 1700000000001.

Definition completedPlan : OptimizedPlan.t := samplePlanWith true 1700000000003.

(** The world after [samplePlan] was made and its two steps were marked. *)
Definition laterWorld : World :=
  mkWorld (exampleUuid 1) 3 (fun n => (1700000000000 + Z.of_nat n)%Z) 4.


(** ** More of models/queue.ts: gem and pack expectations, queue names *)

(** The loop that [calculateExpectedGemReward] and
    [calculateExpectedPackReward] run over their array. *)
Definition expectedOverWins (rewards : list number) (winRate : number) : number :=
  let expectedReward :=
    fold_left
      (fun expectedReward wins =>
         let probabilityOfExactlyNWins :=
           if Nat.eqb wins 0 then 1 - winRate
           else Math_pow winRate wins * (1 - winRate) in
         expectedReward + probabilityOfExactlyNWins * at_index rewards wins)
      (seq 0 (length rewards - 1)) 0 in
  if Nat.ltb 1 (length rewards) then
    let maxWins := (length rewards - 1)%nat in
    let probabilityOfMaxWins := Math_pow winRate maxWins in
    expectedReward + probabilityOfMaxWins * at_index rewards maxWins
  else expectedReward.

Definition calculateExpectedGemReward (queueType : QueueType) (winRate : number)
  : number :=
  let rewards := getQueueRewardsWithFallback queueType in
  match gemRewards rewards with
  | None => 0
  | Some gemRewards =>
      if Nat.eqb (length gemRewards) 0 then 0
      else expectedOverWins gemRewards winRate
  end.

Definition calculateExpectedPackReward (queueType : QueueType) (winRate : number)
  : number :=
  let rewards := getQueueRewardsWithFallback queueType in
  match packRewards rewards with
  | None => 0
  | Some packRewards =>
      if Nat.eqb (length packRewards) 0 then 0
      else expectedOverWins packRewards winRate
  end.

(** [Object.values(QueueType).includes(queueType)]. *)
Definition isValidQueueType (queueType : string) : bool :=
  existsb (String.eqb queueType) (map queueTypeValue getAllQueueTypes).

(** ** More of models/ev-calculator.ts *)

(** [EVResult & { questCompletionBonus: number }]. *)
Record CombinedEV : Type := mkCombinedEV {
  combined : EVResult;
  questCompletionBonus : number
}.

(** [questRewardsByType[quest.type] || 500]: 500 for every quest type. *)
Definition questRewardsByType (t : QuestType) : number :=
  match t with
  | WIN => 500
  | CAST => 500
  | PLAY_COLORS => 500
  end.

(** [bonus / games] when [games > 0], else 0; a bonus over [Infinity] games
    is 0. *)
Definition amortized (bonus : number) (games : extended) : number :=
  match games with
  | Finite g => if Qgt_bool g 0 then bonus / g else 0
  | Infinity => 0
  end.

Definition calculateCombinedEV
  (quest : Quest.t) (queueType : QueueType) (winRate : number) : CombinedEV :=
  let queueEV := calculateQueueEV queueType winRate in
  let progressResult := calculateQuestProgressRate quest queueType winRate in
  let questCompletionBonus := questRewardsByType (Quest.type quest) in
  let questBonusPerGame :=
    amortized questCompletionBonus (estimatedGamesToComplete progressResult) in
  mkCombinedEV
    (mkEVResult
       (expectedValue queueEV + questBonusPerGame)
       (expectedGold queueEV) (expectedGems queueEV) (expectedPacks queueEV)
       (entryCost queueEV)
       (netValue queueEV + questBonusPerGame)
       ((netValue queueEV + questBonusPerGame)
        / averageGameLength (getQueueRewardsWithFallback queueType)))
    questBonusPerGame.

Record QueueComparison : Type := mkQueueComparison {
  comparedQueue : QueueType;
  comparedEV : CombinedEV;
  progressResult : QuestProgressResult
}.

(** [Array.prototype.sort] with the comparator
    [(a, b) => b.ev.evPerMinute - a.ev.evPerMinute].  The sort is stable, and
    the comparator orders by one number, so the result is the stable sort by
    descending [evPerMinute]: an element goes after those of a greater
    [evPerMinute] and before the rest. *)
Fixpoint insertByEvPerMinute (x : QueueComparison) (l : list QueueComparison)
  : list QueueComparison :=
  match l with
  | [] => [x]
  | y :: rest =>
      if Qgt_bool (evPerMinute (combined (comparedEV y)))
                  (evPerMinute (combined (comparedEV x)))
      then y :: insertByEvPerMinute x rest
      else x :: y :: rest
  end.

Definition sortByEvPerMinute (l : list QueueComparison) : list QueueComparison :=
  fold_right insertByEvPerMinute [] l.

Definition compareQueuesForQuest
  (quest : Quest.t) (queueTypes : list QueueType) (winRate : number)
  : list QueueComparison :=
  let results :=
    map (fun queueType =>
           mkQueueComparison queueType
             (calculateCombinedEV quest queueType winRate)
             (calculateQuestProgressRate quest queueType winRate))
      queueTypes in
  sortByEvPerMinute results.

(** [EVCalculationInputSchema]: the queue type and the quest type are well
    formed by their types; the win rate lies in [0,1] and the remaining count
    of the optional quest is not negative. *)
Record EVQuestInput : Type := mkEVQuestInput {
  inputQuestType : QuestType;
  inputRemaining : number
}.

Definition EVCalculationInputSchema_issues
  (queueType : QueueType) (winRate : number) (quest : option EVQuestInput)
  : list ZodIssue :=
  checkRange [Key "winRate"] 0 1 winRate
  ++ match quest with
     | Some q => checkMin [Key "quest"; Key "remaining"] 0 (inputRemaining q)
     | None => []
     end.

Definition validateEVInput
  (queueType : QueueType) (winRate : number) (quest : option EVQuestInput)
  : bool * option ErrorText :=
  match EVCalculationInputSchema_issues queueType winRate quest with
  | [] => (true, None)
  | issues => (false, Some (ValidationMessage issues))
  end.

(** ** models/validation.ts: the stand-alone validators *)

Definition isValidWinRate (value : number) : bool :=
  Qle_bool (3 # 10) value && Qle_bool value (8 # 10).

(** [Number.isInteger(value)]. *)
Definition Number_isInteger (value : number) : bool :=
  Qeq_bool (inject_Z (Qfloor value)) value.

Definition isValidTimeBudget (value : number) : bool :=
  Number_isInteger value && Qle_bool 15 value && Qle_bool value 180.

(** The character classes of the pattern of [isValidUUID], under its [i]
    flag. *)
Definition isHexChar (c : ascii) : bool :=
  let n := nat_of_ascii c in
  ((48 <=? n) && (n <=? 57) || (97 <=? n) && (n <=? 102)
   || (65 <=? n) && (n <=? 70))%nat.

Definition isHyphen (c : ascii) : bool := Ascii.eqb c "-".

(** [[1-5]]. *)
Definition isVersionChar (c : ascii) : bool :=
  let n := nat_of_ascii c in ((49 <=? n) && (n <=? 53))%nat.

(** [[89ab]], in either case. *)
Definition isVariantChar (c : ascii) : bool :=
  existsb (Ascii.eqb c) ["8"; "9"; "a"; "b"; "A"; "B"]%char.

(** A string matches a list of character classes when it has one character
    for each, in order, and nothing else. *)
Fixpoint matchesClasses (classes : list (ascii -> bool)) (s : string) : bool :=
  match classes, s with
  | [], EmptyString => true
  | class :: classes', String c s' => class c && matchesClasses classes' s'
  | _, _ => false
  end.

(** [/^[0-9a-f]{8}-[0-9a-f]{4}-[1-5][0-9a-f]{3}-[89ab][0-9a-f]{3}-[0-9a-f]{12}$/i] *)
Definition uuidRegex : list (ascii -> bool) :=
  repeat isHexChar 8 ++ [isHyphen]
  ++ repeat isHexChar 4 ++ [isHyphen]
  ++ [isVersionChar] ++ repeat isHexChar 3 ++ [isHyphen]
  ++ [isVariantChar] ++ repeat isHexChar 3 ++ [isHyphen]
  ++ repeat isHexChar 12.

Definition isValidUUID (value : string) : bool := matchesClasses uuidRegex value.

(** * Properties *)

(** ** The expected value *)

Lemma Math_pow_0 (p : number) : Math_pow p 0 == 1.
Proof. reflexivity. Qed.

Lemma Math_pow_S (p : number) (k : nat) : Math_pow p (S k) == Math_pow p k * p.
Proof.
  unfold Math_pow. rewrite Nat2Z.inj_succ. unfold Z.succ.
  rewrite Qpower_plus' by lia. rewrite Qpower_1_r. reflexivity.
Qed.

Lemma Math_pow_nonneg (p : number) (k : nat) : 0 <= p -> 0 <= Math_pow p k.
Proof. intros Hp. unfold Math_pow. apply Qpower_0_le; assumption. Qed.

#[local] Instance Math_pow_proper : Proper (Qeq ==> eq ==> Qeq) Math_pow.
Proof. intros p p' Hp k k' <-. unfold Math_pow. rewrite Hp. reflexivity. Qed.

(** Sums written as loops. *)

Lemma sumOver_ext (f g : nat -> number) (n : nat) :
  (forall i, (i < n)%nat -> f i == g i) -> sumOver f n == sumOver g n.
Proof.
  induction n as [|n IH]; intros H; simpl.
  - reflexivity.
  - rewrite IH by (intros i Hi; apply H; lia). rewrite (H n) by lia. reflexivity.
Qed.

Lemma sumOver_shift (f : nat -> number) (n : nat) :
  sumOver f (S n) == f 0%nat + sumOver (fun i => f (S i)) n.
Proof.
  induction n as [|n IH].
  - simpl. ring.
  - change (sumOver f (S (S n))) with (sumOver f (S n) + f (S n)).
    rewrite IH. simpl. ring.
Qed.

Lemma fold_left_sum (g : nat -> number) (n k : nat) (acc : number) :
  fold_left (fun a w => a + g w) (seq k n) acc
  == acc + sumOver (fun i => g (k + i)%nat) n.
Proof.
  induction n as [|n IH].
  - simpl. ring.
  - rewrite seq_S, fold_left_app. simpl. rewrite IH. ring.
Qed.

#[local] Instance streak_proper (R : list number) : Proper (Qeq ==> Qeq) (streak R).
Proof.
  intros p p' Hp. induction R as [|r [|r' rest] IH]; simpl; try reflexivity.
  simpl in IH. rewrite IH, Hp. reflexivity.
Qed.

Lemma streak_cons (r r' : number) (rest : list number) (p : number) :
  streak (r :: r' :: rest) p = (1 - p) * r + p * streak (r' :: rest) p.
Proof. reflexivity. Qed.

Lemma streak_at_0 (R : list number) (p : number) :
  p == 0 -> streak R p == at_index R 0.
Proof.
  intros Hp. destruct R as [|r [|r' rest]]; try reflexivity.
  rewrite streak_cons, Hp. unfold at_index; simpl. ring.
Qed.

Lemma streak_at_1 (R : list number) (p : number) :
  p == 1 -> streak R p == at_index R (length R - 1).
Proof.
  intros Hp. induction R as [|r [|r' rest] IH]; try reflexivity.
  rewrite streak_cons, IH, Hp. unfold at_index.
  replace (length (r :: r' :: rest) - 1)%nat with (S (length (r' :: rest) - 1))
    by (simpl; lia).
  change (nth (S ?n) (r :: ?l) 0) with (nth n l 0). ring.
Qed.

(** The sum of the specification, started [k] wins in, is [p^k] times the
    Horner form. *)
Lemma streak_as_sum (R : list number) (p : number) (k : nat) :
  R <> [] ->
  sumOver (fun i => at_index R i * (Math_pow p (k + i) * (1 - p))) (length R - 1)
  + Math_pow p (k + (length R - 1)) * at_index R (length R - 1)
  == Math_pow p k * streak R p.
Proof.
  revert k. induction R as [|r [|r' rest] IH]; intros k HR.
  - congruence.
  - simpl. rewrite Nat.add_0_r. unfold at_index; simpl. ring.
  - replace (length (r :: r' :: rest) - 1)%nat with (S (length (r' :: rest) - 1))
      by (simpl; lia).
    rewrite sumOver_shift, streak_cons.
    assert (IH' := IH (S k) ltac:(discriminate)).
    rewrite Math_pow_S in IH'.
    rewrite <- Qmult_assoc in IH'.
    setoid_replace (Math_pow p k * ((1 - p) * r + p * streak (r' :: rest) p))
      with (at_index (r :: r' :: rest) 0 * (Math_pow p (k + 0) * (1 - p))
            + Math_pow p k * (p * streak (r' :: rest) p))
      by (rewrite Nat.add_0_r; unfold at_index; simpl; ring).
    rewrite <- IH'.
    rewrite <- Qplus_assoc. apply Qplus_comp; [reflexivity|].
    apply Qplus_comp.
    + apply sumOver_ext. intros i _. rewrite Nat.add_succ_r. reflexivity.
    + rewrite Nat.add_succ_r. reflexivity.
Qed.

Lemma winStreakExpectation_streak (R : list number) (p : number) :
  R <> [] -> winStreakExpectation R p == streak R p.
Proof.
  intros HR. unfold winStreakExpectation.
  assert (H := streak_as_sum R p 0 HR). simpl in H.
  rewrite Math_pow_0, Qmult_1_l in H. rewrite <- H.
  apply Qplus_comp; [|reflexivity].
  apply sumOver_ext. intros i _. unfold stoppingProbability.
  destruct i; simpl; [rewrite Math_pow_0; ring | reflexivity].
Qed.

Lemma Qeq_bool_false (a b : number) : Qeq_bool a b = false -> ~ a == b.
Proof. intros H. apply Qeq_bool_neq. assumption. Qed.

(** The loop of [calculateExpectedReward] computes the sum of the
    specification, and so the Horner form. *)
Lemma calculateExpectedReward_streak (R : list number) (p : number) :
  (2 <= length R)%nat -> calculateExpectedReward R p == streak R p.
Proof.
  intros Hlen. unfold calculateExpectedReward.
  destruct (Nat.eqb_spec (length R) 0) as [H0|_]; [lia|].
  destruct (Qeq_bool p 0) eqn:Hp0.
  { apply Qeq_bool_eq in Hp0. rewrite streak_at_0 by assumption. reflexivity. }
  destruct (Qeq_bool p 1) eqn:Hp1.
  { apply Qeq_bool_eq in Hp1. rewrite streak_at_1 by assumption. reflexivity. }
  cbv zeta. rewrite fold_left_sum, Qplus_0_l.
  rewrite <- winStreakExpectation_streak by (destruct R; [simpl in Hlen; lia | discriminate]).
  unfold winStreakExpectation.
  replace (length R) with (S (length R - 1)) at 1 by lia.
  simpl sumOver. apply Qplus_comp.
  - apply sumOver_ext. intros i Hi. unfold stoppingProbability. cbn [Nat.add].
    destruct (Nat.eqb_spec i 0); [ring|].
    destruct (Nat.eqb_spec i (length R - 1)); [lia|ring].
  - cbn [Nat.add]. destruct (Nat.eqb_spec (length R - 1) 0); [lia|].
    rewrite Nat.eqb_refl. reflexivity.
Qed.

Lemma winRewards_length (q : QueueType) :
  (2 <= length (winRewards (getQueueRewardsWithFallback q)))%nat.
Proof. destruct q; simpl; lia. Qed.

Lemma calculateExpectedGoldReward_streak (q : QueueType) (p : number) :
  calculateExpectedGoldReward q p
  == streak (winRewards (getQueueRewardsWithFallback q)) p.
Proof.
  unfold calculateExpectedGoldReward. cbv zeta.
  assert (Hlen := winRewards_length q).
  set (R := winRewards (getQueueRewardsWithFallback q)) in *.
  destruct (Nat.eqb_spec (length R) 0) as [H0|_]; [lia|].
  destruct (Nat.ltb_spec 1 (length R)) as [_|H1]; [|lia].
  rewrite fold_left_sum, Qplus_0_l.
  rewrite <- winStreakExpectation_streak by (destruct R; [simpl in Hlen; lia | discriminate]).
  unfold winStreakExpectation. apply Qplus_comp; [|reflexivity].
  apply sumOver_ext. intros i _. unfold stoppingProbability. cbn [Nat.add].
  destruct (Nat.eqb_spec i 0); ring.
Qed.

(** Monotonicity of the Horner form on a non-decreasing reward array. *)
Lemma streak_above_head (r : number) (rest : list number) (p : number) :
  nondecreasing (r :: rest) -> 0 <= p -> p <= 1 -> r <= streak (r :: rest) p.
Proof.
  revert r. induction rest as [|r' rest IH]; intros r Hs Hp0 Hp1.
  - simpl. lra.
  - rewrite streak_cons. destruct Hs as [Hr Hs].
    specialize (IH r' Hs Hp0 Hp1).
    assert (0 <= p * (streak (r' :: rest) p - r)) by (apply Qmult_le_0_compat; lra).
    lra.
Qed.



Lemma reward_tables_shape (q : QueueType) :
  let rewards := getQueueRewardsWithFallback q in
  ((2 <= length (winRewards rewards))%nat /\ nondecreasing (winRewards rewards))
  /\ (forall gems, gemRewards rewards = Some gems ->
        (2 <= length gems)%nat /\ nondecreasing gems)
  /\ (forall packs, packRewards rewards = Some packs ->
        (2 <= length packs)%nat /\ nondecreasing packs)
  /\ 0 < averageGameLength rewards.
Proof.
  assert (Hopt : forall o : option (list number),
             (forall l, o = Some l -> (2 <= length l)%nat /\ nondecreasing l)
             <-> match o with
                 | Some l => (2 <= length l)%nat /\ nondecreasing l
                 | None => True
                 end).
  { intros [l|]; split; intros H; auto.
    - intros l' [= <-]. assumption.
    - intros l' [=]. }
  cbv zeta. rewrite !Hopt.
  destruct q; cbn; repeat split; try lia; try lra.
Qed.

(** C1.  For every queue with reward array R[0..n], n >= 1, and every win
    rate in [0,1], the expected gold of [calculateQueueEV] is the win-streak
    expectation: the sum over wins in [0, n-1] of R[wins] times the stopping
    probability, plus winRate^n * R[n]; at win rate 0 it is R[0] and at win
    rate 1 it is R[n]. *)
Theorem expectedGold_is_win_streak_expectation
  (q : QueueType) (winRate : number) :
  let R := winRewards (getQueueRewardsWithFallback q) in
  let n := (length R - 1)%nat in
  (1 <= n)%nat -> 0 <= winRate -> winRate <= 1 ->
  expectedGold (calculateQueueEV q winRate) == winStreakExpectation R winRate
  /\ (winRate == 0 -> expectedGold (calculateQueueEV q winRate) == at_index R 0)
  /\ (winRate == 1 -> expectedGold (calculateQueueEV q winRate) == at_index R n).
Proof.
  intros R n Hn _ _.
  assert (Hlen : (2 <= length R)%nat) by (subst n; lia).
  assert (HR : R <> []) by (destruct R; [simpl in Hlen; lia | discriminate]).
  change (expectedGold (calculateQueueEV q winRate))
    with (calculateExpectedReward R winRate).
  rewrite calculateExpectedReward_streak by assumption.
  repeat split.
  - rewrite winStreakExpectation_streak by assumption. reflexivity.
  - intros Hp. apply streak_at_0. assumption.
  - intros Hp. apply streak_at_1. assumption.
Qed.

Lemma expectedGold_is_win_streak_expectation_witness :
  expectedGold (calculateQueueEV QUICK_DRAFT (1 # 2))
  == winStreakExpectation [50; 100; 200; 300; 450; 650; 950; 1200] (1 # 2).
Proof.
  apply (expectedGold_is_win_streak_expectation QUICK_DRAFT (1 # 2)).
  - simpl. lia.
  - unfold Qle. simpl. lia.
  - unfold Qle. simpl. lia.
Defined.



(** C10.  For every queue type and every win rate (in particular every win
    rate in [0,1]), [calculateExpectedGoldReward] of the reward model returns
    the expected gold that [calculateQueueEV] computes. *)
Theorem calculateExpectedGoldReward_agrees (q : QueueType) (winRate : number) :
  calculateExpectedGoldReward q winRate
  == expectedGold (calculateQueueEV q winRate).
Proof.
  change (expectedGold (calculateQueueEV q winRate))
    with (calculateExpectedReward (winRewards (getQueueRewardsWithFallback q)) winRate).
  rewrite calculateExpectedGoldReward_streak.
  rewrite calculateExpectedReward_streak by apply winRewards_length.
  reflexivity.
Qed.

Lemma Qle_bool_false (a b : Q) : Qle_bool a b = false <-> b < a.
Proof.
  split; intros H.
  - apply Qnot_le_lt. intros Hle. apply Qle_bool_iff in Hle. congruence.
  - destruct (Qle_bool a b) eqn:E; [|reflexivity].
    apply Qle_bool_iff in E. lra.
Qed.

Lemma Qgt_bool_true (a b : Q) : Qgt_bool a b = true <-> b < a.
Proof. unfold Qgt_bool. rewrite negb_true_iff. apply Qle_bool_false. Qed.

Lemma Qgt_bool_false (a b : Q) : Qgt_bool a b = false <-> a <= b.
Proof. unfold Qgt_bool. rewrite negb_false_iff. apply Qle_bool_iff. Qed.

Lemma Qlt_bool_true (a b : Q) : Qlt_bool a b = true <-> a < b.
Proof. unfold Qlt_bool. rewrite negb_true_iff. apply Qle_bool_false. Qed.

Lemma Qlt_bool_false (a b : Q) : Qlt_bool a b = false <-> b <= a.
Proof. unfold Qlt_bool. rewrite negb_false_iff. apply Qle_bool_iff. Qed.

Lemma Math_min_spec (a b : Q) :
  (a <= b /\ Math_min a b = a) \/ (b < a /\ Math_min a b = b).
Proof.
  unfold Math_min. destruct (Qle_bool a b) eqn:E.
  - left. split; [apply Qle_bool_iff; assumption | reflexivity].
  - right. split; [apply Qle_bool_false; assumption | reflexivity].
Qed.

Lemma Math_max_spec (a b : Q) :
  (a <= b /\ Math_max a b = b) \/ (b < a /\ Math_max a b = a).
Proof.
  unfold Math_max. destruct (Qle_bool a b) eqn:E.
  - left. split; [apply Qle_bool_iff; assumption | reflexivity].
  - right. split; [apply Qle_bool_false; assumption | reflexivity].
Qed.


(** The number of games of a step: one, two or three, by how many double
    games fit in the remaining time. *)
Lemma estimatedGamesFor_cases (rt a : Q) :
  0 < a ->
  (rt <= 2 * a /\ estimatedGamesFor rt a == 1)
  \/ (2 * a < rt /\ rt <= 4 * a /\ estimatedGamesFor rt a == 2)
  \/ (4 * a < rt /\ estimatedGamesFor rt a == 3).
Proof.
  intros Ha. unfold estimatedGamesFor, Math_ceil.
  set (x := rt / a / 2).
  assert (Hx : rt == x * (2 * a)) by (subst x; field; lra).
  assert (Hup := Qle_ceiling x). assert (Hlo := Qceiling_lt x).
  remember (Qceiling x) as c eqn:Ec. clear Ec.
  destruct (Z_lt_le_dec c 2) as [Hc|Hc]; [|destruct (Z_lt_le_dec c 3) as [Hc'|Hc']].
  - left.
    assert (Hc1 : inject_Z c <= 1) by (change 1 with (inject_Z 1); rewrite <- Zle_Qle; lia).
    split.
    + rewrite Hx. assert (x <= 1) by lra. nra.
    + destruct (Math_min_spec 3 (inject_Z c)) as [[H1 ->]|[H1 ->]]; [lra|].
      destruct (Math_max_spec 1 (inject_Z c)) as [[H2 ->]|[H2 ->]]; lra.
  - right; left.
    assert (c = 2%Z) by lia. subst c.
    change (inject_Z 2) with 2 in *. change (inject_Z (2 - 1)) with 1 in *.
    split; [|split].
    + rewrite Hx. nra.
    + rewrite Hx. nra.
    + destruct (Math_min_spec 3 2) as [[H1 ->]|[H1 ->]]; [lra|].
      destruct (Math_max_spec 1 2) as [[H2 ->]|[H2 ->]]; lra.
  - right; right.
    assert (Hc3 : 3 <= inject_Z c) by (change 3 with (inject_Z 3); rewrite <- Zle_Qle; lia).
    assert (Hc3' : inject_Z (c - 1) == inject_Z c - 1)
      by (unfold Z.sub; rewrite inject_Z_plus; reflexivity).
    split.
    + rewrite Hx. assert (2 < x) by lra. nra.
    + destruct (Math_min_spec 3 (inject_Z c)) as [[H1 ->]|[H1 ->]]; [|lra].
      destruct (Math_max_spec 1 3) as [[H2 ->]|[H2 ->]]; lra.
Qed.

Lemma averageGameLength_positive (q : QueueType) :
  0 < averageGameLength (getQueueRewardsWithFallback q).
Proof. destruct q; cbn; lra. Qed.

(** What a step costs: never less than a game of the fastest queue, never
    less than 21 minutes while more than 40 are left, and with 21 to 40
    minutes left it leaves fewer than 21. *)
Lemma step_cost_bounds (q : QueueType) (rt : Q) :
  let a := averageGameLength (getQueueRewardsWithFallback q) in
  let c := estimatedGamesFor rt a * a in
  c <= rt ->
  7 <= c /\ (40 < rt -> 21 <= c) /\ (21 <= rt -> rt <= 40 -> rt - c < 21).
Proof.
  intros a c. subst c.
  destruct (estimatedGamesFor_cases rt a (averageGameLength_positive q))
    as [[H1 Hg]|[(H1 & H2 & Hg)|[H1 Hg]]];
    revert Hg; generalize (estimatedGamesFor rt a) as g; intros g Hg;
    assert (Ha : a == 7 \/ a == 8 \/ a == 9 \/ a == 10 \/ a == 12 \/ a == 15
                 \/ a == 18 \/ a == 20 \/ a == 35)
      by (subst a; destruct q; cbn; intuition reflexivity);
    clearbody a; rewrite Hg in *; clear Hg g;
    intros Hfit; repeat split; intros; decompose [or] Ha; clear Ha; lra.
Qed.

Lemma Qceiling_positive (x : Q) : 0 < x -> (1 <= Qceiling x)%Z.
Proof.
  intros Hx. assert (H := Qle_ceiling x).
  assert (0 < inject_Z (Qceiling x)) by lra.
  change 0 with (inject_Z 0) in H0. rewrite <- Zlt_Qlt in H0. lia.
Qed.

Lemma Qceiling_drop (x y : Q) : y <= x - 1 -> (Qceiling y + 1 <= Qceiling x)%Z.
Proof.
  intros Hxy. assert (H1 := Qceiling_lt y). assert (H2 := Qle_ceiling x).
  assert (H3 : inject_Z (Qceiling y - 1) < inject_Z (Qceiling x - 1)).
  { assert (Hx : inject_Z (Qceiling x - 1) == inject_Z (Qceiling x) - 1)
      by (unfold Z.sub; rewrite inject_Z_plus; reflexivity).
    rewrite Hx. lra. }
  rewrite <- Zlt_Qlt in H3. lia.
Qed.

Lemma stepCap_step (rt c : Q) :
  c <= rt -> 7 <= c -> (40 < rt -> 21 <= c) -> (21 <= rt -> rt <= 40 -> rt - c < 21) ->
  (S (stepCap (rt - c)) <= stepCap rt)%nat.
Proof.
  intros Hfit H7 H21 H40. unfold stepCap.
  destruct (Qlt_bool rt 7) eqn:E1; [apply Qlt_bool_true in E1; lra|].
  apply Qlt_bool_false in E1.
  destruct (Qlt_bool rt 14) eqn:E2.
  { apply Qlt_bool_true in E2.
    destruct (Qlt_bool (rt - c) 7) eqn:F1; [lia|]. apply Qlt_bool_false in F1. lra. }
  apply Qlt_bool_false in E2.
  destruct (Qlt_bool rt 21) eqn:E3.
  { apply Qlt_bool_true in E3.
    destruct (Qlt_bool (rt - c) 7) eqn:F1; [lia|].
    destruct (Qlt_bool (rt - c) 14) eqn:F2; [lia|]. apply Qlt_bool_false in F2. lra. }
  apply Qlt_bool_false in E3.
  destruct (Qle_bool rt 40) eqn:E4.
  { apply Qle_bool_iff in E4. specialize (H40 E3 E4).
    destruct (Qlt_bool (rt - c) 7) eqn:F1; [lia|].
    destruct (Qlt_bool (rt - c) 14) eqn:F2; [lia|].
    destruct (Qlt_bool (rt - c) 21) eqn:F3; [lia|]. apply Qlt_bool_false in F3. lra. }
  apply Qle_bool_false in E4. specialize (H21 E4).
  assert (Hpos : (1 <= Qceiling ((rt - 40) / 21))%Z).
  { apply Qceiling_positive. apply Qlt_shift_div_l; lra. }
  destruct (Qlt_bool (rt - c) 7) eqn:F1; [lia|].
  destruct (Qlt_bool (rt - c) 14) eqn:F2; [lia|].
  destruct (Qlt_bool (rt - c) 21) eqn:F3; [lia|].
  destruct (Qle_bool (rt - c) 40) eqn:F4; [lia|].
  assert (Hdrop : (Qceiling ((rt - c - 40) / 21) + 1 <= Qceiling ((rt - 40) / 21))%Z).
  { apply Qceiling_drop.
    setoid_replace ((rt - 40) / 21 - 1) with ((rt - 21 - 40) / 21) by field.
    apply Qmult_le_compat_r; [lra|]. unfold Qinv, Qle; simpl; lia. }
  apply Qle_bool_false in F4.
  assert ((1 <= Qceiling ((rt - c - 40) / 21))%Z).
  { apply Qceiling_positive. apply Qlt_shift_div_l; lra. }
  lia.
Qed.

Lemma stepCap_180 (rt : Q) : rt <= 180 -> (stepCap rt <= 10)%nat.
Proof.
  intros H. unfold stepCap.
  destruct (Qlt_bool rt 7); [lia|].
  destruct (Qlt_bool rt 14); [lia|].
  destruct (Qlt_bool rt 21); [lia|].
  destruct (Qle_bool rt 40); [lia|].
  assert (Hc : (Qceiling ((rt - 40) / 21) <= 7)%Z).
  { rewrite <- (Qceiling_Z 7). apply Qceiling_resp_le.
    apply Qle_shift_div_r; [lra|]. change (inject_Z 7) with 7. lra. }
  lia.
Qed.

(** ** The queue options *)

Section Options.

Variables (quests : list Quest.t) (qp : JsMap.t) (cq : JsSet.t).
Variables (rt winRate : Q).

Local Abbreviation option_of q := (evaluateQueueOption q quests qp cq rt winRate).

Local Abbreviation cost_of q :=
  (estimatedGamesFor rt (averageGameLength (getQueueRewardsWithFallback q))
   * averageGameLength (getQueueRewardsWithFallback q)).

Lemma evaluateQueueOption_Some (q : QueueType) (o : QueueOption.t) :
  option_of q = Some o ->
  QueueOption.queueType o = q
  /\ QueueOption.estimatedMinutes o = cost_of q
  /\ QueueOption.estimatedMinutes o <= rt
  /\ QueueOption.canCompleteInBudget o = true.
Proof.
  unfold evaluateQueueOption. cbv zeta.
  destruct (Qgt_bool _ rt) eqn:E; [discriminate|].
  apply Qgt_bool_false in E.
  intros [= <-]. cbn. repeat split; try assumption.
  apply Qle_bool_iff. assumption.
Qed.


Local Abbreviation searched := (searched quests qp cq rt winRate).

Lemma considerQueue_searched (seen : list QueueType)
  (best : option QueueOption.t * option Q) (q : QueueType) :
  searched seen best ->
  searched (seen ++ [q]) (considerQueue quests qp cq rt winRate best q).
Proof.
  intros Hs. unfold considerQueue.
  destruct (option_of q) as [o'|] eqn:Eq.
  - destruct (evaluateQueueOption_Some q o' Eq) as (_ & _ & _ & ->).
    cbn [andb]. unfold searched in Hs. destruct best as [[o|] bp]; cbn in *.
    + destruct Hs as [-> (pre & q0 & post & -> & Hq0 & Hpre & Hpost)].
      cbn. destruct (Qgt_bool _ _) eqn:E.
      * apply Qgt_bool_true in E. unfold searched; cbn. split; [reflexivity|].
        exists (pre ++ q0 :: post), q, []. repeat split; try assumption.
        -- intros q' o'' Hin Hq'. apply in_app_or in Hin.
           destruct Hin as [Hin|[<-|Hin]].
           ++ specialize (Hpre q' o'' Hin Hq'). lra.
           ++ rewrite Hq0 in Hq'. injection Hq' as <-. assumption.
           ++ specialize (Hpost q' o'' Hin Hq'). lra.
        -- intros q' o'' [].
      * apply Qgt_bool_false in E. unfold searched; cbn. split; [reflexivity|].
        exists pre, q0, (post ++ [q]). repeat split; try assumption.
        -- rewrite <- app_assoc. reflexivity.
        -- intros q' o'' Hin Hq'. apply in_app_or in Hin.
           destruct Hin as [Hin|[<-|[]]].
           ++ apply (Hpost q' o''); assumption.
           ++ rewrite Eq in Hq'. injection Hq' as <-. assumption.
    + destruct Hs as [-> Hnone]. cbn. unfold searched; cbn.
      split; [reflexivity|].
      exists seen, q, []. repeat split; try assumption.
      * intros q' o'' Hin Hq'. rewrite (Hnone q' Hin) in Hq'. discriminate.
      * intros q' o'' [].
  - unfold searched in *. destruct (fst best) as [o|].
    + destruct Hs as [Hbp (pre & q0 & post & -> & Hq0 & Hpre & Hpost)].
      split; [assumption|].
      exists pre, q0, (post ++ [q]). repeat split; try assumption.
      * rewrite <- app_assoc. reflexivity.
      * intros q' o'' Hin Hq'. apply in_app_or in Hin.
        destruct Hin as [Hin|[<-|[]]].
        -- apply (Hpost q' o''); assumption.
        -- rewrite Eq in Hq'. discriminate.
    + destruct Hs as [Hbp Hnone]. split; [assumption|].
      intros q' Hin. apply in_app_or in Hin. destruct Hin as [Hin|[<-|[]]].
      * apply Hnone. assumption.
      * assumption.
Qed.

Lemma fold_considerQueue_searched (rest seen : list QueueType)
  (best : option QueueOption.t * option Q) :
  searched seen best ->
  searched (seen ++ rest)
    (fold_left (considerQueue quests qp cq rt winRate) rest best).
Proof.
  revert seen best. induction rest as [|q rest IH]; intros seen best Hs.
  - rewrite app_nil_r. assumption.
  - cbn [fold_left].
    replace (seen ++ q :: rest) with ((seen ++ [q]) ++ rest)
      by (rewrite <- app_assoc; reflexivity).
    apply IH. apply considerQueue_searched. assumption.
Qed.

End Options.

(** The option found is that of the first queue among those of the highest
    priority; none is found exactly when no queue has an option. *)
Lemma findBestQueueOption_search
  (quests : list Quest.t) (qp : JsMap.t) (cq : JsSet.t) (rt winRate : Q)
  (settings : UserSettings) :
  searched quests qp cq rt winRate (availableQueuesOf (preferredQueues settings))
    (fold_left (considerQueue quests qp cq rt winRate)
       (availableQueuesOf (preferredQueues settings)) (None, None)).
Proof.
  assert (H := fold_considerQueue_searched quests qp cq rt winRate
                 (availableQueuesOf (preferredQueues settings)) [] (None, None)).
  assert (H0 : searched quests qp cq rt winRate [] (None, None))
    by (unfold searched; cbn [fst snd]; split; [reflexivity | intros q []]).
  exact (H H0).
Qed.


Lemma findBestQueueOption_Some
  (quests : list Quest.t) (qp : JsMap.t) (cq : JsSet.t) (rt winRate : Q)
  (settings : UserSettings) (best : QueueOption.t) :
  findBestQueueOption quests qp cq rt winRate settings = Some best ->
  exists q,
    In q (availableQueuesOf (preferredQueues settings))
    /\ evaluateQueueOption q quests qp cq rt winRate = Some best.
Proof.
  intros H. unfold findBestQueueOption in H.
  assert (Hb := findBestQueueOption_search quests qp cq rt winRate settings).
  unfold searched in Hb. rewrite H in Hb.
  destruct Hb as (_ & pre & q & post & Hq & Ho & _).
  exists q. split; [|assumption]. rewrite Hq. apply in_elt.
Qed.


(** What the option chosen costs. *)
Lemma findBestQueueOption_cost
  (quests : list Quest.t) (qp : JsMap.t) (cq : JsSet.t) (rt winRate : Q)
  (settings : UserSettings) (best : QueueOption.t) :
  findBestQueueOption quests qp cq rt winRate settings = Some best ->
  let c := QueueOption.estimatedMinutes best in
  c <= rt /\ 7 <= c /\ (40 < rt -> 21 <= c) /\ (21 <= rt -> rt <= 40 -> rt - c < 21).
Proof.
  intros H c. destruct (findBestQueueOption_Some quests qp cq rt winRate settings best H) as (q & _ & Hq).
  destruct (evaluateQueueOption_Some quests qp cq rt winRate q best Hq) as (_ & Hc & Hfit & _).
  subst c. split; [assumption|].
  rewrite Hc in *. apply step_cost_bounds. assumption.
Qed.

(** ** The greedy loop *)

Lemma greedyLoop_Run
  (quests : list Quest.t) (winRate : Q) (settings : UserSettings) (fuel : nat) :
  forall (st : LoopState) (w : World) (st' : LoopState) (w' : World),
    greedyLoop fuel quests winRate settings st w = Some (st', w') ->
    Run quests winRate settings st w st' w'.
Proof.
  induction fuel as [|fuel IH]; intros st w st' w' H; cbn [greedyLoop] in H.
  - destruct (loopCondition st) eqn:Ec; [discriminate|].
    injection H as <- <-. apply Run_exit. assumption.
  - destruct (loopCondition st) eqn:Ec.
    2:{ injection H as <- <-. apply Run_exit. assumption. }
    destruct (findBestQueueOption quests (questProgress st) (completedQuests st)
                (remainingTime st) winRate settings) as [best|] eqn:Eb.
    2:{ injection H as <- <-. apply Run_none; assumption. }
    destruct (Qgt_bool (QueueOption.estimatedMinutes best) (remainingTime st)) eqn:Eg.
    { injection H as <- <-. apply (Run_over quests winRate settings st w best); assumption. }
    destruct (createPlanStep best (questProgress st) (completedQuests st) w)
      as [step w1] eqn:Es.
    apply (Run_step quests winRate settings st w best step w1); try assumption.
    apply IH. assumption.
Qed.

Lemma Qceiling_step (rt m : Q) :
  0 < rt -> 1 <= m ->
  (Z.to_nat (Qceiling (rt - m)) < Z.to_nat (Qceiling rt))%nat.
Proof.
  intros Hrt Hm.
  assert (H1 := Qceiling_positive rt Hrt).
  assert (H2 : (Qceiling (rt - m) + 1 <= Qceiling rt)%Z)
    by (apply Qceiling_drop; lra).
  lia.
Qed.

(** The loop comes to an end within [ceil(remainingTime)] iterations. *)
Lemma greedyLoop_returns
  (quests : list Quest.t) (winRate : Q) (settings : UserSettings) (fuel : nat) :
  forall (st : LoopState) (w : World),
    (Z.to_nat (Qceiling (remainingTime st)) <= fuel)%nat ->
    exists st' w', greedyLoop fuel quests winRate settings st w = Some (st', w').
Proof.
  induction fuel as [|fuel IH]; intros st w Hfuel; cbn [greedyLoop].
  - destruct (loopCondition st) eqn:Ec; [|eauto].
    unfold loopCondition in Ec. apply andb_true_iff in Ec. destruct Ec as [Ec _].
    apply Qgt_bool_true in Ec. assert (H := Qceiling_positive _ Ec). lia.
  - destruct (loopCondition st) eqn:Ec; [|eauto].
    unfold loopCondition in Ec. apply andb_true_iff in Ec. destruct Ec as [Ec _].
    apply Qgt_bool_true in Ec.
    destruct (findBestQueueOption quests (questProgress st) (completedQuests st)
                (remainingTime st) winRate settings) as [best|] eqn:Eb; [|eauto].
    destruct (Qgt_bool (QueueOption.estimatedMinutes best) (remainingTime st)) eqn:Eg;
      [eauto|].
    destruct (createPlanStep best (questProgress st) (completedQuests st) w)
      as [step w1] eqn:Es.
    apply IH. cbn [remainingTime].
    destruct (findBestQueueOption_cost quests (questProgress st) (completedQuests st)
                (remainingTime st) winRate settings best Eb) as (_ & H7 & _).
    assert (H := Qceiling_step (remainingTime st) (QueueOption.estimatedMinutes best)
                   Ec ltac:(lra)).
    lia.
Qed.

Lemma sumMinutes_snoc (l : list PlanStep.t) (s : PlanStep.t) :
  sumMinutes (l ++ [s]) = sumMinutes l + PlanStep.estimatedMinutes s.
Proof. unfold sumMinutes. rewrite fold_left_app. reflexivity. Qed.

(** What every execution of the loop keeps: the minutes of the steps and
    the remaining time add up to the same total, the remaining time stays
    non-negative, steps are only added, and never more than [stepCap]
    allows. *)
Lemma Run_invariant
  (quests : list Quest.t) (winRate : Q) (settings : UserSettings)
  (st : LoopState) (w : World) (st' : LoopState) (w' : World) :
  Run quests winRate settings st w st' w' ->
  sumMinutes (steps st') + remainingTime st' == sumMinutes (steps st) + remainingTime st
  /\ (0 <= remainingTime st -> 0 <= remainingTime st')
  /\ (length (steps st) <= length (steps st'))%nat
  /\ (length (steps st') <= length (steps st) + stepCap (remainingTime st))%nat.
Proof.
  induction 1 as [st w Hc|st w Hc Hb|st w best Hc Hb Hg
                  |st w best step w1 st' w' Hc Hb Hg Hs Hrun IH].
  - repeat split; try reflexivity; try tauto; lia.
  - repeat split; try reflexivity; try tauto; lia.
  - repeat split; try reflexivity; try tauto; lia.
  - cbn [steps remainingTime] in IH.
    destruct IH as (IH1 & IH2 & IH3 & IH4).
    apply Qgt_bool_false in Hg.
    destruct (findBestQueueOption_cost quests (questProgress st) (completedQuests st)
                (remainingTime st) winRate settings best Hb) as (Hfit & H7 & H21 & H40).
    assert (Hcap := stepCap_step (remainingTime st) (QueueOption.estimatedMinutes best)
                      Hfit H7 H21 H40).
    rewrite sumMinutes_snoc in IH1. rewrite length_app in IH3, IH4. cbn [length] in *.
    assert (Hstep : PlanStep.estimatedMinutes step = QueueOption.estimatedMinutes best).
    { unfold createPlanStep, bind, uuidv4, ret in Hs. injection Hs as <- _. reflexivity. }
    rewrite Hstep in IH1.
    split; [rewrite IH1; ring|].
    split; [intros _; apply IH2; lra|].
    split; lia.
Qed.



(** ** The sums of a plan *)

Lemma fold_left_listSum {A} (f : A -> Q) (l : list A) (acc : Q) :
  fold_left (fun sum x => sum + f x) l acc == acc + listSum (map f l).
Proof.
  revert acc. induction l as [|x l IH]; intros acc; cbn.
  - ring.
  - rewrite IH. ring.
Qed.

Lemma sumMinutes_listSum (l : list PlanStep.t) :
  sumMinutes l == listSum (map PlanStep.estimatedMinutes l).
Proof. unfold sumMinutes. rewrite fold_left_listSum. ring. Qed.

Lemma sumRewards_listSum (l : list PlanStep.t) :
  gold (sumRewards l) == listSum (map (fun s => gold (PlanStep.expectedRewards s)) l)
  /\ gems (sumRewards l) == listSum (map (fun s => gems (PlanStep.expectedRewards s)) l)
  /\ packs (sumRewards l) == listSum (map (fun s => packs (PlanStep.expectedRewards s)) l).
Proof.
  unfold sumRewards.
  assert (H : forall acc,
             let r := fold_left
                        (fun sum step =>
                           mkRewards
                             (gold sum + gold (PlanStep.expectedRewards step))
                             (gems sum + gems (PlanStep.expectedRewards step))
                             (packs sum + packs (PlanStep.expectedRewards step)))
                        l acc in
             gold r == gold acc
                       + listSum (map (fun s => gold (PlanStep.expectedRewards s)) l)
             /\ gems r == gems acc
                          + listSum (map (fun s => gems (PlanStep.expectedRewards s)) l)
             /\ packs r == packs acc
                           + listSum (map (fun s => packs (PlanStep.expectedRewards s)) l)).
  { induction l as [|s l IH]; intros acc; cbn.
    - repeat split; ring.
    - destruct (IH (mkRewards
                      (gold acc + gold (PlanStep.expectedRewards s))
                      (gems acc + gems (PlanStep.expectedRewards s))
                      (packs acc + packs (PlanStep.expectedRewards s))))
        as (Hg & Hm & Hp).
      cbn in Hg, Hm, Hp. rewrite Hg, Hm, Hp. repeat split; ring. }
  destruct (H (mkRewards 0 0 0)) as (Hg & Hm & Hp). cbn in Hg, Hm, Hp.
  rewrite Hg, Hm, Hp. repeat split; ring.
Qed.

(** ** The input schema *)

Lemma checkRange_nil (p : list PathSegment) (lo hi x : Q) :
  checkRange p lo hi x = [] <-> lo <= x /\ x <= hi.
Proof.
  unfold checkRange.
  destruct (Qlt_bool x lo) eqn:E1.
  - apply Qlt_bool_true in E1. split; [discriminate | intros [H _]; lra].
  - apply Qlt_bool_false in E1. destruct (Qgt_bool x hi) eqn:E2.
    + apply Qgt_bool_true in E2. split; [discriminate | intros [_ H]; lra].
    + apply Qgt_bool_false in E2. tauto.
Qed.

Lemma checkMin_nil (p : list PathSegment) (lo x : Q) :
  checkMin p lo x = [] <-> lo <= x.
Proof.
  unfold checkMin. destruct (Qlt_bool x lo) eqn:E1.
  - apply Qlt_bool_true in E1. split; [discriminate | intros H; lra].
  - apply Qlt_bool_false in E1. tauto.
Qed.

Lemma questsIssues_nil (isUuid : string -> bool) (quests : list Quest.t) (i : nat) :
  questsIssues isUuid i quests = []
  <-> Forall (fun quest =>
                isUuid (Quest.id quest) = true
                /\ 0 <= Quest.remaining quest
                /\ 0 <= Quest.expiresInDays quest) quests.
Proof.
  revert i. induction quests as [|quest rest IH]; intros i; cbn [questsIssues].
  - split; [constructor | reflexivity].
  - split.
    + intros H. apply app_eq_nil in H. destruct H as [Hq Hrest].
      unfold questIssues in Hq.
      apply app_eq_nil in Hq. destruct Hq as [Hid Hq].
      apply app_eq_nil in Hq. destruct Hq as [Hrem Hexp].
      constructor.
      * destruct (isUuid (Quest.id quest)); [|discriminate].
        apply checkMin_nil in Hrem. apply checkMin_nil in Hexp. tauto.
      * apply (IH (S i)). assumption.
    + intros H. inversion H as [|? ? (Hid & Hrem & Hexp) Hrest]; subst.
      unfold questIssues. rewrite Hid.
      rewrite (proj2 (checkMin_nil _ 0 (Quest.remaining quest)) Hrem).
      rewrite (proj2 (checkMin_nil _ 0 (Quest.expiresInDays quest)) Hexp).
      cbn [app]. apply (IH (S i)). assumption.
Qed.

(** The input passes the schema exactly when every quest record is well
    formed, the time budget and the win rate are in range, and so are the
    settings when supplied. *)
Lemma validateOptimizationInput_success
  (isUuid : string -> bool) (quests : list Quest.t) (timeBudget winRate : Q)
  (settings : option UserSettings) :
  fst (validateOptimizationInput isUuid quests timeBudget winRate settings) = true
  <-> (Forall (fun quest =>
                 isUuid (Quest.id quest) = true
                 /\ 0 <= Quest.remaining quest
                 /\ 0 <= Quest.expiresInDays quest) quests
       /\ (15 <= timeBudget /\ timeBudget <= 180)
       /\ ((3 # 10) <= winRate /\ winRate <= (8 # 10))
       /\ settingsIssues settings = []).
Proof.
  unfold validateOptimizationInput, OptimizationInputSchema_issues.
  rewrite <- (questsIssues_nil isUuid quests 0).
  rewrite <- (checkRange_nil [Key "timeBudget"] 15 180 timeBudget).
  rewrite <- (checkRange_nil [Key "winRate"] (3 # 10) (8 # 10) winRate).
  destruct (questsIssues isUuid 0 quests) as [|i1 l1]; cbn [app].
  2:{ cbn. split; [discriminate | intros (H & _); discriminate]. }
  destruct (checkRange [Key "timeBudget"] 15 180 timeBudget) as [|i2 l2]; cbn [app].
  2:{ cbn. split; [discriminate | intros (_ & H & _); discriminate]. }
  destruct (checkRange [Key "winRate"] (3 # 10) (8 # 10) winRate) as [|i3 l3]; cbn [app].
  2:{ cbn. split; [discriminate | intros (_ & _ & H & _); discriminate]. }
  destruct (settingsIssues settings) as [|i4 l4]; cbn.
  - tauto.
  - split; [discriminate | intros (_ & _ & _ & H); discriminate].
Qed.

(** ** The pre-checks and the first step *)






Lemma generateOptimizedPlan_returns
  (quests : list Quest.t) (timeBudget winRate : Q) (settings : UserSettings)
  (w : World) :
  exists st w1 plan w',
    Run quests winRate settings (initialState quests timeBudget) w st w1
    /\ generateOptimizedPlan quests timeBudget winRate settings w = Some (plan, w')
    /\ OptimizedPlan.steps plan = steps st
    /\ OptimizedPlan.totalEstimatedMinutes plan = sumMinutes (steps st)
    /\ OptimizedPlan.totalExpectedRewards plan = sumRewards (steps st)
    /\ OptimizedPlan.questsCompleted plan = completedQuests st
    /\ OptimizedPlan.timeBudget plan = timeBudget
    /\ OptimizedPlan.winRate plan = winRate.
Proof.
  destruct (greedyLoop_returns quests winRate settings (loopFuel timeBudget)
              (initialState quests timeBudget) w ltac:(cbn; unfold loopFuel; lia))
    as (st & w1 & Hloop).
  unfold generateOptimizedPlan. rewrite Hloop.
  exists st, w1. eexists. eexists.
  split; [apply (greedyLoop_Run _ _ _ _ _ _ _ _ Hloop)|].
  cbn. repeat split.
Qed.

(** ** [optimizePlan] *)

(** Every call returns, and a successful result comes from an execution of
    the greedy loop on the feasible quests of a valid input. *)
Lemma optimizePlan_outcome
  (isUuid : string -> bool) (quests : list Quest.t) (timeBudget winRate : Q)
  (settings : option UserSettings) (w : World) :
  exists r w',
    optimizePlan isUuid quests timeBudget winRate settings w = Some (r, w')
    /\ (success r = true ->
        let userSettings := settingsOrDefault settings in
        let feasibleQuests :=
          feasibleQuestsOf (activeQuestsOf quests) timeBudget winRate userSettings in
        fst (validateOptimizationInput isUuid quests timeBudget winRate settings) = true
        /\ feasibleQuests <> []
        /\ exists p st w1,
             plan r = Some p
             /\ Run feasibleQuests winRate userSettings
                  (initialState feasibleQuests timeBudget) w st w1
             /\ OptimizedPlan.steps p = steps st
             /\ OptimizedPlan.totalEstimatedMinutes p = sumMinutes (steps st)
             /\ OptimizedPlan.totalExpectedRewards p = sumRewards (steps st)
             /\ OptimizedPlan.questsCompleted p = completedQuests st
             /\ OptimizedPlan.timeBudget p = timeBudget
             /\ OptimizedPlan.winRate p = winRate).
Proof.
  unfold optimizePlan. cbv zeta.
  destruct (fst (validateOptimizationInput isUuid quests timeBudget winRate settings))
    eqn:Ev; cbn [negb].
  2:{ eexists. eexists. split; [reflexivity|]. cbn. discriminate. }
  destruct (Nat.eqb_spec (length (activeQuestsOf quests)) 0) as [Ha|Ha].
  { eexists. eexists. split; [reflexivity|]. cbn. discriminate. }
  destruct (Nat.eqb_spec
              (length (feasibleQuestsOf (activeQuestsOf quests) timeBudget winRate
                         (settingsOrDefault settings))) 0) as [Hf|Hf].
  { eexists. eexists. split; [reflexivity|]. cbn. discriminate. }
  destruct (generateOptimizedPlan_returns
              (feasibleQuestsOf (activeQuestsOf quests) timeBudget winRate
                 (settingsOrDefault settings))
              timeBudget winRate (settingsOrDefault settings) w)
    as (st & w1 & p & w' & Hrun & Hgen & Hplan).
  rewrite Hgen. eexists. eexists. split; [reflexivity|].
  cbn [success plan]. intros _. split; [reflexivity|]. split.
  - intros Hnil. rewrite Hnil in Hf. cbn in Hf. congruence.
  - exists p, st, w1. split; [reflexivity|]. split; assumption.
Qed.

(** C2.  Every call of [optimizePlan] returns; in a successful result the
    plan's [totalEstimatedMinutes] is the sum of the [estimatedMinutes] of
    its steps and does not exceed the [timeBudget] argument, and its
    [totalExpectedRewards] is the sum of the steps' [expectedRewards] in
    gold, in gems and in packs. *)
Theorem optimizePlan_totals
  (isUuid : string -> bool) (quests : list Quest.t) (timeBudget winRate : Q)
  (settings : option UserSettings) (w : World) :
  exists r w',
    optimizePlan isUuid quests timeBudget winRate settings w = Some (r, w')
    /\ (success r = true ->
        exists p,
          plan r = Some p
          /\ OptimizedPlan.totalEstimatedMinutes p
             == listSum (map PlanStep.estimatedMinutes (OptimizedPlan.steps p))
          /\ OptimizedPlan.totalEstimatedMinutes p <= timeBudget
          /\ gold (OptimizedPlan.totalExpectedRewards p)
             == listSum (map (fun s => gold (PlanStep.expectedRewards s))
                           (OptimizedPlan.steps p))
          /\ gems (OptimizedPlan.totalExpectedRewards p)
             == listSum (map (fun s => gems (PlanStep.expectedRewards s))
                           (OptimizedPlan.steps p))
          /\ packs (OptimizedPlan.totalExpectedRewards p)
             == listSum (map (fun s => packs (PlanStep.expectedRewards s))
                           (OptimizedPlan.steps p))).
Proof.
  destruct (optimizePlan_outcome isUuid quests timeBudget winRate settings w)
    as (r & w' & Hr & Hs).
  exists r, w'. split; [assumption|]. intros Hok.
  destruct (Hs Hok) as (Hv & _ & p & st & w1 & Hp & Hrun & Hsteps & Hmin & Hrew & _).
  apply validateOptimizationInput_success in Hv.
  destruct Hv as (_ & [HT _] & _).
  exists p. split; [assumption|].
  destruct (Run_invariant _ _ _ _ _ _ _ Hrun) as (Hsum & Hpos & _).
  cbn [steps remainingTime initialState] in Hsum, Hpos.
  rewrite Hmin, Hrew, Hsteps.
  destruct (sumRewards_listSum (steps st)) as (Hg & Hm & Hk).
  split; [apply sumMinutes_listSum|].
  split; [|tauto].
  specialize (Hpos ltac:(lra)). unfold sumMinutes at 2 in Hsum. cbn in Hsum. lra.
Qed.



(** ** Ties between queues *)


(** ** Marking a step *)

(** C6 (amended).  [updatePlanProgress] returns a plan with the same
    identifier, totals, completed quests, time budget, win rate and creation
    date, and as many steps; each step keeps every field but [completed],
    which becomes the flag in the steps whose identifier is [stepId] and
    stays as it was in the others.  [updatedAt] is set to the clock's
    reading. *)
Theorem updatePlanProgress_frame
  (plan : OptimizedPlan.t) (stepId : string) (flag : bool) (w : World) :
  let plan' := fst (updatePlanProgress plan stepId flag w) in
  OptimizedPlan.id plan' = OptimizedPlan.id plan
  /\ OptimizedPlan.totalEstimatedMinutes plan' = OptimizedPlan.totalEstimatedMinutes plan
  /\ OptimizedPlan.totalExpectedRewards plan' = OptimizedPlan.totalExpectedRewards plan
  /\ OptimizedPlan.questsCompleted plan' = OptimizedPlan.questsCompleted plan
  /\ OptimizedPlan.timeBudget plan' = OptimizedPlan.timeBudget plan
  /\ OptimizedPlan.winRate plan' = OptimizedPlan.winRate plan
  /\ OptimizedPlan.createdAt plan' = OptimizedPlan.createdAt plan
  /\ OptimizedPlan.updatedAt plan' = clockSource w (clockReads w)
  /\ length (OptimizedPlan.steps plan') = length (OptimizedPlan.steps plan)
  /\ forall i step,
       nth_error (OptimizedPlan.steps plan) i = Some step ->
       exists step',
         nth_error (OptimizedPlan.steps plan') i = Some step'
         /\ PlanStep.id step' = PlanStep.id step
         /\ PlanStep.queue step' = PlanStep.queue step
         /\ PlanStep.targetGames step' = PlanStep.targetGames step
         /\ PlanStep.estimatedMinutes step' = PlanStep.estimatedMinutes step
         /\ PlanStep.expectedRewards step' = PlanStep.expectedRewards step
         /\ PlanStep.questProgress step' = PlanStep.questProgress step
         /\ PlanStep.completed step'
            = (if String.eqb (PlanStep.id step) stepId then flag
               else PlanStep.completed step).
Proof.
  cbv zeta. unfold updatePlanProgress, bind, newDate, ret. cbn [fst OptimizedPlan.id
    OptimizedPlan.steps OptimizedPlan.totalEstimatedMinutes
    OptimizedPlan.totalExpectedRewards OptimizedPlan.questsCompleted
    OptimizedPlan.timeBudget OptimizedPlan.winRate OptimizedPlan.createdAt
    OptimizedPlan.updatedAt].
  repeat (split; [reflexivity|]).
  split; [apply length_map|].
  intros i step Hi. rewrite nth_error_map, Hi. cbn [option_map].
  eexists. split; [reflexivity|].
  destruct (String.eqb (PlanStep.id step) stepId); cbn; repeat split.
Qed.

(** Marking a step also changes a plan field: the date of the last update. *)
Lemma updatePlanProgress_changes_updatedAt :
  OptimizedPlan.updatedAt
    (fst (updatePlanProgress samplePlan (exampleUuid 1 0) true laterWorld))
  <> OptimizedPlan.updatedAt samplePlan.
Proof. vm_compute. discriminate. Qed.

(** ** Recalculation *)





(** ** What the identifier generator and the clock decide *)

Lemma createPlanStep_anonymous
  (option : QueueOption.t) (qp : JsMap.t) (cq : JsSet.t) (w1 w2 : World) :
  anonymousStep (fst (createPlanStep option qp cq w1))
  = anonymousStep (fst (createPlanStep option qp cq w2)).
Proof. reflexivity. Qed.

(** Two runs of the loop from states that differ in step identifiers only
    end in such states, whatever the two worlds. *)
Lemma greedyLoop_anonymous
  (quests : list Quest.t) (winRate : Q) (settings : UserSettings) (fuel : nat) :
  forall (st1 st2 : LoopState) (w1 w2 : World),
    anonymousState st1 = anonymousState st2 ->
    match greedyLoop fuel quests winRate settings st1 w1,
          greedyLoop fuel quests winRate settings st2 w2 with
    | Some (st1', _), Some (st2', _) => anonymousState st1' = anonymousState st2'
    | None, None => True
    | _, _ => False
    end.
Proof.
  induction fuel as [|fuel IH]; intros st1 st2 w1 w2 Heq;
    destruct st1 as [steps1 rt1 qp1 cq1], st2 as [steps2 rt2 qp2 cq2];
    unfold anonymousState in Heq; cbn [steps remainingTime questProgress completedQuests] in Heq;
    injection Heq as Hsteps <- <- <-; cbn [greedyLoop];
    unfold loopCondition; cbn [steps remainingTime questProgress completedQuests].
  - destruct (Qgt_bool rt1 0 && (JsSet.size cq1 <? JsMap.size qp1)%nat); [exact I|].
    unfold anonymousState; cbn. rewrite Hsteps. reflexivity.
  - destruct (Qgt_bool rt1 0 && (JsSet.size cq1 <? JsMap.size qp1)%nat).
    2:{ unfold anonymousState; cbn. rewrite Hsteps. reflexivity. }
    destruct (findBestQueueOption quests qp1 cq1 rt1 winRate settings) as [best|].
    2:{ unfold anonymousState; cbn. rewrite Hsteps. reflexivity. }
    destruct (Qgt_bool (QueueOption.estimatedMinutes best) rt1).
    { unfold anonymousState; cbn. rewrite Hsteps. reflexivity. }
    assert (Hstep := createPlanStep_anonymous best qp1 cq1 w1 w2).
    destruct (createPlanStep best qp1 cq1 w1) as [step1 w1'].
    destruct (createPlanStep best qp1 cq1 w2) as [step2 w2'].
    cbn [fst] in Hstep.
    apply IH. unfold anonymousState; cbn [steps remainingTime questProgress completedQuests].
    rewrite !map_app. cbn [map]. rewrite Hsteps, Hstep. reflexivity.
Qed.

Lemma generateWarnings_anonymous
  (allQuests feasibleQuests : list Quest.t) (plan : OptimizedPlan.t) :
  generateWarnings allQuests feasibleQuests (anonymousPlan plan)
  = generateWarnings allQuests feasibleQuests plan.
Proof. reflexivity. Qed.

Lemma generateOptimizedPlan_anonymous
  (quests : list Quest.t) (timeBudget winRate : Q) (settings : UserSettings)
  (w1 w2 : World) :
  option_map (fun pw => anonymousPlan (fst pw))
    (generateOptimizedPlan quests timeBudget winRate settings w1)
  = option_map (fun pw => anonymousPlan (fst pw))
      (generateOptimizedPlan quests timeBudget winRate settings w2).
Proof.
  unfold generateOptimizedPlan.
  assert (H := greedyLoop_anonymous quests winRate settings (loopFuel timeBudget)
                 (initialState quests timeBudget) (initialState quests timeBudget)
                 w1 w2 eq_refl).
  destruct (greedyLoop (loopFuel timeBudget) quests winRate settings
              (initialState quests timeBudget) w1) as [[st1 w1']|];
    destruct (greedyLoop (loopFuel timeBudget) quests winRate settings
                (initialState quests timeBudget) w2) as [[st2 w2']|];
    try contradiction; [|reflexivity].
  destruct st1 as [steps1 rt1 qp1 cq1], st2 as [steps2 rt2 qp2 cq2].
  unfold anonymousState in H. cbn [steps remainingTime questProgress completedQuests] in H.
  injection H as Hsteps <- <- <-.
  cbn [steps completedQuests].
  assert (Hm : forall l1 l2, map anonymousStep l1 = map anonymousStep l2 ->
                             sumMinutes l1 = sumMinutes l2 /\ sumRewards l1 = sumRewards l2).
  { unfold sumMinutes, sumRewards.
    generalize 0 at 1 2. generalize (mkRewards 0 0 0).
    intros r0 m0 l1. revert r0 m0.
    induction l1 as [|s1 l1 IHl]; intros r0 m0 [|s2 l2] Hl; try discriminate.
    - split; reflexivity.
    - cbn [map] in Hl. cbn [fold_left].
      assert (Hmin := f_equal (fun l => option_map PlanStep.estimatedMinutes (hd_error l)) Hl).
      assert (Hrew := f_equal (fun l => option_map PlanStep.expectedRewards (hd_error l)) Hl).
      assert (Htl := f_equal (@tl _) Hl).
      cbn in Hmin, Hrew, Htl. injection Hmin as ->. injection Hrew as ->.
      apply IHl. assumption. }
  destruct (Hm steps1 steps2 Hsteps) as [-> ->].
  cbn. unfold anonymousPlan. cbn. rewrite Hsteps. reflexivity.
Qed.

(** C8 (amended).  Two calls of [optimizePlan] with the same quests, time
    budget, win rate and settings both return, and their results are the
    same in everything but what the identifier generator and the clock put
    in: the identifiers of the plan and of its steps, [createdAt] and
    [updatedAt]. *)
Theorem optimizePlan_same_up_to_ids_and_dates
  (isUuid : string -> bool) (quests : list Quest.t) (timeBudget winRate : Q)
  (settings : option UserSettings) (w1 w2 : World) :
  exists r1 w1' r2 w2',
    optimizePlan isUuid quests timeBudget winRate settings w1 = Some (r1, w1')
    /\ optimizePlan isUuid quests timeBudget winRate settings w2 = Some (r2, w2')
    /\ anonymousResult r1 = anonymousResult r2.
Proof.
  destruct (optimizePlan_outcome isUuid quests timeBudget winRate settings w1)
    as (r1 & w1' & H1 & _).
  destruct (optimizePlan_outcome isUuid quests timeBudget winRate settings w2)
    as (r2 & w2' & H2 & _).
  exists r1, w1', r2, w2'. split; [assumption|]. split; [assumption|].
  unfold optimizePlan in H1, H2. cbv zeta in H1, H2.
  destruct (negb (fst (validateOptimizationInput isUuid quests timeBudget winRate settings))).
  { injection H1 as <- _. injection H2 as <- _. reflexivity. }
  destruct (length (activeQuestsOf quests) =? 0)%nat.
  { injection H1 as <- _. injection H2 as <- _. reflexivity. }
  destruct (length (feasibleQuestsOf (activeQuestsOf quests) timeBudget winRate
                      (settingsOrDefault settings)) =? 0)%nat.
  { injection H1 as <- _. injection H2 as <- _. reflexivity. }
  assert (H := generateOptimizedPlan_anonymous
                 (feasibleQuestsOf (activeQuestsOf quests) timeBudget winRate
                    (settingsOrDefault settings))
                 timeBudget winRate (settingsOrDefault settings) w1 w2).
  destruct (generateOptimizedPlan _ timeBudget winRate (settingsOrDefault settings) w1)
    as [[p1 u1]|]; [|discriminate].
  destruct (generateOptimizedPlan _ timeBudget winRate (settingsOrDefault settings) w2)
    as [[p2 u2]|]; [|discriminate].
  cbn [option_map fst] in H.
  assert (H' : anonymousPlan p1 = anonymousPlan p2)
    by exact (f_equal (fun o => match o with
                                | Some x => x
                                | None => anonymousPlan p1
                                end) H).
  clear H. rename H' into H.
  injection H1 as <- _. injection H2 as <- _.
  unfold anonymousResult. cbn [success plan error warnings option_map].
  rewrite <- (generateWarnings_anonymous _ _ p1), <- (generateWarnings_anonymous _ _ p2).
  rewrite H. reflexivity.
Qed.

(** The same call in two worlds whose generators hand out different
    identifiers gives two different results. *)
Lemma optimizePlan_depends_on_the_generator :
  exists r1 w1' r2 w2',
    optimizePlan uuidShaped mockQuests 60 (6 # 10) (Some createDefaultSettings)
      exampleWorld = Some (r1, w1')
    /\ optimizePlan uuidShaped mockQuests 60 (6 # 10) (Some createDefaultSettings)
         otherWorld = Some (r2, w2')
    /\ r1 <> r2.
Proof.
  destruct (optimizePlan_outcome uuidShaped mockQuests 60 (6 # 10)
              (Some createDefaultSettings) exampleWorld) as (r1 & w1' & H1 & _).
  destruct (optimizePlan_outcome uuidShaped mockQuests 60 (6 # 10)
              (Some createDefaultSettings) otherWorld) as (r2 & w2' & H2 & _).
  exists r1, w1', r2, w2'. split; [assumption|]. split; [assumption|].
  intros Heq.
  assert (E1 : option_map (fun rw => option_map OptimizedPlan.id (plan (fst rw)))
                 (Some (r1, w1')) = Some (Some (exampleUuid 1 2)))
    by (rewrite <- H1; vm_compute; reflexivity).
  assert (E2 : option_map (fun rw => option_map OptimizedPlan.id (plan (fst rw)))
                 (Some (r2, w2')) = Some (Some (exampleUuid 2 2)))
    by (rewrite <- H2; vm_compute; reflexivity).
  cbn in E1, E2. rewrite Heq in E1. rewrite E1 in E2. vm_compute in E2. discriminate.
Qed.

(** ** The properties at the quests of the tests *)

(** [samplePlan] is the plan the optimizer returns, [completedPlan] that plan
    after both steps were marked. *)
Example samplePlan_is_optimized :
  option_map (fun rw => plan (fst rw))
    (optimizePlan uuidShaped mockQuests 60 (6 # 10) (Some createDefaultSettings)
       exampleWorld)
  = Some (Some samplePlan).
Proof. vm_compute. reflexivity. Qed.

Example completedPlan_is_marked :
  fst (updatePlanProgress
         (fst (updatePlanProgress samplePlan (exampleUuid 1 0) true
                 (mkWorld (exampleUuid 1) 3 (fun n => (1700000000000 + Z.of_nat n)%Z) 2)))
         (exampleUuid 1 1) true
         (mkWorld (exampleUuid 1) 3 (fun n => (1700000000000 + Z.of_nat n)%Z) 3))
  = completedPlan.
Proof. vm_compute. reflexivity. Qed.


(** * Further properties *)

(** ** Gem and pack expectations of the reward model *)

Lemma expectedOverWins_streak (R : list Q) (p : Q) :
  (2 <= length R)%nat -> expectedOverWins R p == streak R p.
Proof.
  intros Hlen. unfold expectedOverWins. cbv zeta.
  destruct (Nat.ltb_spec 1 (length R)) as [_|H1]; [|lia].
  rewrite fold_left_sum, Qplus_0_l.
  rewrite <- winStreakExpectation_streak by (destruct R; [simpl in Hlen; lia | discriminate]).
  unfold winStreakExpectation. apply Qplus_comp; [|reflexivity].
  apply sumOver_ext. intros i _. unfold stoppingProbability. cbn [Nat.add].
  destruct (Nat.eqb_spec i 0); ring.
Qed.

(** For every queue and win rate, [calculateExpectedGemReward] returns the
    expected gems of [calculateQueueEV]: 0 for a queue without gem rewards,
    the win-streak expectation of its gem array otherwise. *)
Theorem calculateExpectedGemReward_agrees (q : QueueType) (winRate : Q) :
  calculateExpectedGemReward q winRate
  == expectedGems (calculateQueueEV q winRate).
Proof.
  unfold calculateExpectedGemReward, calculateQueueEV. cbv zeta. cbn [expectedGems].
  destruct (reward_tables_shape q) as (_ & Hgems & _).
  destruct (gemRewards (getQueueRewardsWithFallback q)) as [gems|]; [|reflexivity].
  destruct (Hgems gems eq_refl) as [Hlen _].
  destruct (Nat.eqb_spec (length gems) 0) as [H0|_]; [lia|].
  rewrite expectedOverWins_streak, calculateExpectedReward_streak by assumption.
  reflexivity.
Qed.

(** For every queue and win rate, [calculateExpectedPackReward] returns the
    expected packs of [calculateQueueEV]. *)
Theorem calculateExpectedPackReward_agrees (q : QueueType) (winRate : Q) :
  calculateExpectedPackReward q winRate
  == expectedPacks (calculateQueueEV q winRate).
Proof.
  unfold calculateExpectedPackReward, calculateQueueEV. cbv zeta. cbn [expectedPacks].
  destruct (reward_tables_shape q) as (_ & _ & Hpacks & _).
  destruct (packRewards (getQueueRewardsWithFallback q)) as [packs|]; [|reflexivity].
  destruct (Hpacks packs eq_refl) as [Hlen _].
  destruct (Nat.eqb_spec (length packs) 0) as [H0|_]; [lia|].
  rewrite expectedOverWins_streak, calculateExpectedReward_streak by assumption.
  reflexivity.
Qed.

(** ** Bounds of the expectation *)

Lemma streak_below_last (r : Q) (rest : list Q) (p : Q) :
  nondecreasing (r :: rest) -> 0 <= p -> p <= 1 ->
  streak (r :: rest) p <= at_index (r :: rest) (length rest).
Proof.
  revert r. induction rest as [|r' rest IH]; intros r Hs Hp0 Hp1.
  - unfold at_index. simpl. lra.
  - rewrite streak_cons. destruct Hs as [Hr Hs].
    specialize (IH r' Hs Hp0 Hp1).
    assert (Hhead := streak_above_head r' rest p Hs Hp0 Hp1).
    change (at_index (r :: r' :: rest) (length (r' :: rest)))
      with (at_index (r' :: rest) (length rest)).
    assert (0 <= (1 - p) * (streak (r' :: rest) p - r))
      by (apply Qmult_le_0_compat; lra).
    lra.
Qed.

Lemma calculateExpectedReward_between (R : list Q) (p : Q) :
  (2 <= length R)%nat -> nondecreasing R -> 0 <= p -> p <= 1 ->
  at_index R 0 <= calculateExpectedReward R p
  /\ calculateExpectedReward R p <= at_index R (length R - 1).
Proof.
  intros Hlen Hs Hp0 Hp1. rewrite calculateExpectedReward_streak by assumption.
  destruct R as [|r rest]; [simpl in Hlen; lia|]. split.
  - apply (streak_above_head r rest p); assumption.
  - replace (length (r :: rest) - 1)%nat with (length rest) by (simpl; lia).
    apply streak_below_last; assumption.
Qed.

Lemma queueEV_between (q : QueueType) (winRate : Q) :
  0 <= winRate -> winRate <= 1 ->
  let R := winRewards (getQueueRewardsWithFallback q) in
  at_index R 0 <= expectedGold (calculateQueueEV q winRate)
  /\ expectedGold (calculateQueueEV q winRate) <= at_index R (length R - 1)
  /\ 0 <= expectedGold (calculateQueueEV q winRate)
  /\ 0 <= expectedGems (calculateQueueEV q winRate)
  /\ 0 <= expectedPacks (calculateQueueEV q winRate)
  /\ 0 <= expectedValue (calculateQueueEV q winRate).
Proof.
  intros Hp0 Hp1 R.
  destruct (reward_tables_shape q) as ([Hwl Hws] & Hgems & Hpacks & _).
  destruct (calculateExpectedReward_between R winRate Hwl Hws Hp0 Hp1) as [Hlo Hhi].
  assert (H0 : 0 <= at_index R 0) by (subst R; destruct q; cbn; lra).
  assert (Hg : 0 <= expectedGems (calculateQueueEV q winRate)).
  { unfold calculateQueueEV; cbv zeta; cbn [expectedGems].
    destruct (gemRewards (getQueueRewardsWithFallback q)) as [gems|] eqn:Eg; [|lra].
    destruct (Hgems gems eq_refl) as [Hl Hs].
    destruct (calculateExpectedReward_between gems winRate Hl Hs Hp0 Hp1) as [Hlo' _].
    assert (0 <= at_index gems 0)
      by (revert Eg; destruct q; cbn; intros [= <-]; cbn; lra).
    lra. }
  assert (Hk : 0 <= expectedPacks (calculateQueueEV q winRate)).
  { unfold calculateQueueEV; cbv zeta; cbn [expectedPacks].
    destruct (packRewards (getQueueRewardsWithFallback q)) as [packs|] eqn:Ek; [|lra].
    destruct (Hpacks packs eq_refl) as [Hl Hs].
    destruct (calculateExpectedReward_between packs winRate Hl Hs Hp0 Hp1) as [Hlo' _].
    assert (0 <= at_index packs 0)
      by (revert Ek; destruct q; cbn; intros [= <-]; cbn; lra).
    lra. }
  change (expectedGold (calculateQueueEV q winRate))
    with (calculateExpectedReward R winRate).
  repeat split; try assumption; try lra.
  change (expectedValue (calculateQueueEV q winRate))
    with (calculateExpectedReward R winRate
          + expectedGems (calculateQueueEV q winRate) * 5
          + expectedPacks (calculateQueueEV q winRate) * 1000).
  lra.
Qed.

(** At a win rate in [0,1] the expected gold of a queue lies between its
    reward for no win and its reward for the most wins, and expected gold,
    gems, packs and gold equivalent are not negative. *)
Theorem calculateQueueEV_bounds (q : QueueType) (winRate : Q) :
  0 <= winRate -> winRate <= 1 ->
  let R := winRewards (getQueueRewardsWithFallback q) in
  at_index R 0 <= expectedGold (calculateQueueEV q winRate)
  /\ expectedGold (calculateQueueEV q winRate) <= at_index R (length R - 1)
  /\ 0 <= expectedGold (calculateQueueEV q winRate)
  /\ 0 <= expectedGems (calculateQueueEV q winRate)
  /\ 0 <= expectedPacks (calculateQueueEV q winRate)
  /\ 0 <= expectedValue (calculateQueueEV q winRate).
Proof. apply queueEV_between. Qed.

Lemma calculateQueueEV_bounds_witness :
  0 <= expectedGold (calculateQueueEV STANDARD_BO1 (99 # 100))
  /\ expectedGold (calculateQueueEV STANDARD_BO1 (99 # 100)) <= 250.
Proof.
  destruct (calculateQueueEV_bounds STANDARD_BO1 (99 # 100)) as (_ & Hhi & Hlo & _).
  - vm_compute. discriminate.
  - vm_compute. discriminate.
  - split; [exact Hlo | exact Hhi].
Defined.

(** The arrays [calculateExpectedReward] treats apart: the empty array
    gives 0; an array of one reward [r] gives [r] at the win rates 0 and 1
    and [(1 - winRate) * r] at any other. *)
Theorem calculateExpectedReward_short_arrays (r winRate : Q) :
  calculateExpectedReward [] winRate = 0
  /\ (winRate == 0 \/ winRate == 1 -> calculateExpectedReward [r] winRate = r)
  /\ (~ winRate == 0 -> ~ winRate == 1 ->
      calculateExpectedReward [r] winRate == (1 - winRate) * r).
Proof.
  split; [reflexivity|]. split.
  - intros H. unfold calculateExpectedReward. cbn [length Nat.eqb].
    destruct (Qeq_bool winRate 0) eqn:E0; [reflexivity|].
    destruct (Qeq_bool winRate 1) eqn:E1; [reflexivity|].
    apply Qeq_bool_neq in E0. apply Qeq_bool_neq in E1. tauto.
  - intros H0 H1. unfold calculateExpectedReward. cbn [length Nat.eqb].
    destruct (Qeq_bool winRate 0) eqn:E0; [apply Qeq_bool_eq in E0; tauto|].
    destruct (Qeq_bool winRate 1) eqn:E1; [apply Qeq_bool_eq in E1; tauto|].
    cbn. unfold at_index. cbn. ring.
Qed.

(** ** Quest progress *)

Lemma multiplierOf_positive (q : QueueType) (t : QuestType) :
  0 < multiplierOf (questMultiplier (getQueueRewardsWithFallback q)) t.
Proof. destruct q, t; cbn; lra. Qed.





(** A quest with nothing remaining needs no game and no time, and makes no
    progress per game, at any win rate that is not negative. *)
Theorem calculateQuestProgressRate_completed
  (quest : Quest.t) (q : QueueType) (winRate : Q) :
  Quest.remaining quest == 0 -> 0 <= winRate ->
  let r := calculateQuestProgressRate quest q winRate in
  progressPerGame r == 0
  /\ estimatedGamesToComplete r = Finite 0
  /\ estimatedMinutesToComplete r = Finite 0.
Proof.
  intros Hrem Hp r. subst r. unfold calculateQuestProgressRate. cbv zeta.
  cbn [progressPerGame estimatedGamesToComplete estimatedMinutesToComplete].
  assert (E0 : Qeq_bool (Quest.remaining quest) 0 = true)
    by (apply Qeq_bool_iff; assumption).
  rewrite E0. split; [|split; reflexivity].
  assert (Hm := multiplierOf_positive q (Quest.type quest)).
  match goal with |- Math_min ?b _ == 0 =>
    assert (Hb : 0 <= b);
    [ destruct (Quest.type quest); try lra; apply Qmult_le_0_compat; lra
    | destruct (Math_min_spec b (Quest.remaining quest)) as [[H ->]|[H ->]]; lra ]
  end.
Qed.

Lemma calculateQuestProgressRate_completed_witness :
  progressPerGame (calculateQuestProgressRate doneQuest STANDARD_BO1 (1 # 2)) == 0
  /\ estimatedGamesToComplete (calculateQuestProgressRate doneQuest STANDARD_BO1 (1 # 2))
     = Finite 0
  /\ estimatedMinutesToComplete (calculateQuestProgressRate doneQuest STANDARD_BO1 (1 # 2))
     = Finite 0.
Proof.
  apply (calculateQuestProgressRate_completed doneQuest STANDARD_BO1 (1 # 2)).
  - reflexivity.
  - vm_compute. discriminate.
Defined.

(** A win quest with something remaining makes no progress at a win rate
    of 0 (or less): games and minutes to complete are [Infinity], and no time
    budget is enough for it. *)
Theorem calculateQuestProgressRate_never
  (quest : Quest.t) (q : QueueType) (winRate timeBudget : Q) :
  Quest.type quest = WIN -> 0 < Quest.remaining quest -> winRate <= 0 ->
  estimatedGamesToComplete (calculateQuestProgressRate quest q winRate) = Infinity
  /\ estimatedMinutesToComplete (calculateQuestProgressRate quest q winRate) = Infinity
  /\ canComplete (estimateQuestCompletion quest q winRate timeBudget) = false.
Proof.
  intros Ht Hrem Hp.
  assert (Hm := multiplierOf_positive q WIN).
  unfold estimateQuestCompletion, calculateQuestProgressRate. cbv zeta.
  cbn [progressPerGame estimatedGamesToComplete estimatedMinutesToComplete canComplete].
  rewrite Ht.
  destruct (Qeq_bool (Quest.remaining quest) 0) eqn:E0.
  { apply Qeq_bool_eq in E0. lra. }
  set (base := winRate * _).
  assert (Hb : base <= 0).
  { subst base.
    assert (0 <= (- winRate) * multiplierOf (questMultiplier (getQueueRewardsWithFallback q)) WIN)
      by (apply Qmult_le_0_compat; lra).
    lra. }
  assert (Eg : Qgt_bool (Math_min base (Quest.remaining quest)) 0 = false).
  { apply Qgt_bool_false.
    destruct (Math_min_spec base (Quest.remaining quest)) as [[H ->]|[H ->]]; lra. }
  rewrite Eg. repeat split.
Qed.

Lemma calculateQuestProgressRate_never_witness :
  canComplete (estimateQuestCompletion winQuest STANDARD_BO1 0 180) = false.
Proof.
  apply (calculateQuestProgressRate_never winQuest STANDARD_BO1 0 180).
  - reflexivity.
  - vm_compute. reflexivity.
  - vm_compute. discriminate.
Defined.

(** ** Completion estimates *)

(** [estimateQuestCompletion]: a quest that can be completed in a budget
    can be completed in any larger one; the time remaining is never
    negative, it is the budget less the minutes needed when the quest can be
    completed, and 0 when it cannot. *)
Theorem estimateQuestCompletion_budget
  (quest : Quest.t) (q : QueueType) (winRate timeBudget : Q) :
  let e := estimateQuestCompletion quest q winRate timeBudget in
  (forall larger, timeBudget <= larger -> canComplete e = true ->
                  canComplete (estimateQuestCompletion quest q winRate larger) = true)
  /\ 0 <= timeRemaining e
  /\ (canComplete e = true ->
      exists minutes, completionMinutes e = Finite minutes
                      /\ minutes <= timeBudget
                      /\ timeRemaining e == timeBudget - minutes)
  /\ (canComplete e = false -> timeRemaining e == 0).
Proof.
  cbv zeta. unfold estimateQuestCompletion. cbv zeta.
  cbn [canComplete timeRemaining completionMinutes].
  destruct (estimatedMinutesToComplete (calculateQuestProgressRate quest q winRate))
    as [m|]; cbn [extended_le].
  - split; [|split; [|split]].
    + intros larger Hl Hc. apply Qle_bool_iff in Hc. apply Qle_bool_iff. lra.
    + destruct (Math_max_spec 0 (timeBudget - m)) as [[H ->]|[H ->]]; lra.
    + intros Hc. apply Qle_bool_iff in Hc. exists m. split; [reflexivity|].
      split; [assumption|].
      destruct (Math_max_spec 0 (timeBudget - m)) as [[H ->]|[H ->]]; lra.
    + intros Hc. apply Qle_bool_false in Hc.
      destruct (Math_max_spec 0 (timeBudget - m)) as [[H ->]|[H ->]]; lra.
  - split; [|split; [|split]].
    + intros larger _ Hc. discriminate.
    + lra.
    + intros Hc. discriminate.
    + intros _. reflexivity.
Qed.

(** ** The combined expected value *)





(** ** Ranking the queues *)

Lemma insertByEvPerMinute_perm (x : QueueComparison) (l : list QueueComparison) :
  Permutation (x :: l) (insertByEvPerMinute x l).
Proof.
  induction l as [|y l IH]; cbn [insertByEvPerMinute].
  - apply Permutation_refl.
  - destruct (Qgt_bool _ _).
    + apply perm_trans with (y :: x :: l); [apply perm_swap|].
      apply perm_skip. assumption.
    + apply Permutation_refl.
Qed.

Lemma sortByEvPerMinute_perm (l : list QueueComparison) :
  Permutation l (sortByEvPerMinute l).
Proof.
  induction l as [|x l IH]; cbn.
  - apply perm_nil.
  - apply perm_trans with (x :: sortByEvPerMinute l).
    + apply perm_skip. assumption.
    + apply insertByEvPerMinute_perm.
Qed.

Lemma insertByEvPerMinute_sorted (x : QueueComparison) (l : list QueueComparison) :
  StronglySorted (fun a b => evPerMinute (combined (comparedEV b))
                             <= evPerMinute (combined (comparedEV a))) l ->
  StronglySorted (fun a b => evPerMinute (combined (comparedEV b))
                             <= evPerMinute (combined (comparedEV a)))
    (insertByEvPerMinute x l).
Proof.
  induction 1 as [|y l Hs IH Hy]; cbn [insertByEvPerMinute].
  - constructor; constructor.
  - destruct (Qgt_bool _ _) eqn:E.
    + apply Qgt_bool_true in E. constructor; [assumption|].
      apply (Permutation_Forall (insertByEvPerMinute_perm x l)).
      constructor; [lra | assumption].
    + apply Qgt_bool_false in E. constructor.
      * constructor; assumption.
      * constructor; [assumption|].
        rewrite Forall_forall in *. intros z Hz. specialize (Hy z Hz). cbn beta in *. lra.
Qed.

(** [compareQueuesForQuest] returns one result for each queue given, with
    the combined EV and the progress rate of the quest in that queue, ordered
    by EV per minute from the highest to the lowest. *)
Theorem compareQueuesForQuest_sorted
  (quest : Quest.t) (queueTypes : list QueueType) (winRate : Q) :
  let results := compareQueuesForQuest quest queueTypes winRate in
  Permutation queueTypes (map comparedQueue results)
  /\ length results = length queueTypes
  /\ StronglySorted (fun a b => evPerMinute (combined (comparedEV b))
                                <= evPerMinute (combined (comparedEV a))) results
  /\ Forall (fun r =>
               comparedEV r = calculateCombinedEV quest (comparedQueue r) winRate
               /\ progressResult r
                  = calculateQuestProgressRate quest (comparedQueue r) winRate)
       results.
Proof.
  cbv zeta. unfold compareQueuesForQuest. cbv zeta.
  set (results := map _ queueTypes).
  assert (Hperm := sortByEvPerMinute_perm results).
  split; [|split; [|split]].
  - apply perm_trans with (map comparedQueue results).
    + subst results. rewrite map_map. cbn [comparedQueue]. rewrite map_id.
      apply Permutation_refl.
    + apply Permutation_map. assumption.
  - rewrite <- (Permutation_length Hperm). subst results. apply length_map.
  - clear Hperm. induction results as [|x l IH]; cbn.
    + constructor.
    + apply insertByEvPerMinute_sorted. assumption.
  - apply (Permutation_Forall Hperm). subst results.
    apply Forall_forall. intros r Hr. apply in_map_iff in Hr.
    destruct Hr as (q & <- & _). cbn. split; reflexivity.
Qed.

(** ** The outcomes of [optimizePlan] *)


(** ** The steps of a plan *)

Lemma optimizePlan_plan_success
  (isUuid : string -> bool) (quests : list Quest.t) (timeBudget winRate : Q)
  (settings : option UserSettings) (w w' : World) (r : OptimizationResult)
  (p : OptimizedPlan.t) :
  optimizePlan isUuid quests timeBudget winRate settings w = Some (r, w') ->
  plan r = Some p ->
  success r = true.
Proof.
  unfold optimizePlan. cbv zeta.
  destruct (negb (fst (validateOptimizationInput isUuid quests timeBudget winRate settings))).
  { intros [= <- _] Hp. discriminate. }
  destruct (length (activeQuestsOf quests) =? 0)%nat.
  { intros [= <- _] Hp. discriminate. }
  destruct (length (feasibleQuestsOf (activeQuestsOf quests) timeBudget winRate
                      (settingsOrDefault settings)) =? 0)%nat.
  { intros [= <- _] Hp. discriminate. }
  destruct (generateOptimizedPlan _ timeBudget winRate (settingsOrDefault settings) w)
    as [[p0 w0]|]; [|discriminate].
  intros [= <- _] _. reflexivity.
Qed.


Lemma scanQuest_entries
  (q : QueueType) (qp : JsMap.t) (cq : JsSet.t) (winRate : Q)
  (P : QueueOption.progress -> Prop) (all l : list Quest.t) :
  (forall quest e,
     In quest all ->
     QueueOption.questId e = Quest.id quest ->
     0 < QueueOption.progressAmount e ->
     0 < JsMap.getOr0 qp (QueueOption.questId e) ->
     JsSet.has cq (QueueOption.questId e) = false ->
     P e) ->
  forall acc,
    (forall quest, In quest l -> In quest all) ->
    Forall P (questProgressData acc) ->
    Forall P (questProgressData (fold_left (scanQuest q qp cq winRate) l acc)).
Proof.
  intros HP. induction l as [|quest l IH]; intros acc Hall Hacc; cbn [fold_left].
  - assumption.
  - apply IH; [intros x Hx; apply Hall; right; assumption|].
    unfold scanQuest.
    destruct (JsSet.has cq (Quest.id quest)) eqn:Eh; [assumption|].
    destruct (Qle_bool (JsMap.getOr0 qp (Quest.id quest)) 0) eqn:Er; [assumption|].
    apply Qle_bool_false in Er.
    destruct (Qgt_bool _ 0) eqn:Eg; [|assumption].
    apply Qgt_bool_true in Eg. cbn [questProgressData].
    apply Forall_app. split; [assumption|]. constructor; [|constructor].
    apply (HP quest); cbn [QueueOption.questId QueueOption.progressAmount].
    + apply Hall. left. reflexivity.
    + reflexivity.
    + destruct (Math_min_spec
                  (progressPerGame (calculateQuestProgressRate quest q winRate))
                  (JsMap.getOr0 qp (Quest.id quest))) as [[H ->]|[H ->]]; lra.
    + assumption.
    + assumption.
Qed.

Lemma estimatedGamesFor_whole (rt : Q) (q : QueueType) :
  let a := averageGameLength (getQueueRewardsWithFallback q) in
  exists k : Z,
    (1 <= k <= 3)%Z
    /\ estimatedGamesFor rt a == inject_Z k
    /\ Math_ceil (estimatedGamesFor rt a * a / a) = inject_Z k.
Proof.
  intros a. assert (Ha := averageGameLength_positive q). fold a in Ha.
  assert (H : exists k : Z, (1 <= k <= 3)%Z /\ estimatedGamesFor rt a == inject_Z k).
  { destruct (estimatedGamesFor_cases rt a Ha) as [[_ Hg]|[(_ & _ & Hg)|[_ Hg]]].
    - exists 1%Z. split; [lia | exact Hg].
    - exists 2%Z. split; [lia | exact Hg].
    - exists 3%Z. split; [lia | exact Hg]. }
  destruct H as (k & Hk & Hg). exists k. split; [assumption|]. split; [assumption|].
  unfold Math_ceil. f_equal.
  rewrite <- (Qceiling_Z k). apply Qceiling_comp. rewrite Hg. field. lra.
Qed.

Lemma Math_round_nonneg (x : Q) :
  0 <= x -> exists z : Z, (0 <= z)%Z /\ Math_round x = inject_Z z.
Proof.
  intros Hx. unfold Math_round. exists (Qfloor (x + (1 # 2))). split; [|reflexivity].
  rewrite <- (Qfloor_Z 0). apply Qfloor_resp_le. change (inject_Z 0) with 0. lra.
Qed.

(** What a step made from the option found is like. *)
Lemma createPlanStep_of_best
  (quests : list Quest.t) (qp : JsMap.t) (cq : JsSet.t) (rt winRate : Q)
  (settings : UserSettings) (best : QueueOption.t) (w : World) :
  0 <= winRate -> winRate <= 1 ->
  findBestQueueOption quests qp cq rt winRate settings = Some best ->
  let step := fst (createPlanStep best qp cq w) in
  In (PlanStep.queue step) (availableQueuesOf (preferredQueues settings))
  /\ (exists k : Z,
        (1 <= k <= 3)%Z
        /\ PlanStep.targetGames step = inject_Z k
        /\ PlanStep.estimatedMinutes step
           == inject_Z k
              * averageGameLength (getQueueRewardsWithFallback (PlanStep.queue step)))
  /\ PlanStep.completed step = false
  /\ (exists g m k : Z,
        (0 <= g)%Z /\ (0 <= m)%Z /\ (0 <= k)%Z
        /\ PlanStep.expectedRewards step
           = mkRewards (inject_Z g) (inject_Z m) (inject_Z k))
  /\ Forall (fun progress =>
               In (questId progress) (map Quest.id quests)
               /\ 0 < progressAmount progress)
       (PlanStep.questProgress step).
Proof.
  intros Hp0 Hp1 Hbest step.
  destruct (findBestQueueOption_Some quests qp cq rt winRate settings best Hbest)
    as (q & Hq & Ho).
  destruct (evaluateQueueOption_Some quests qp cq rt winRate q best Ho)
    as (Hqt & Hmin & Hfit & _).
  destruct (estimatedGamesFor_whole rt q) as (k & Hk & Hg & Hceil).
  subst step. unfold createPlanStep, bind, uuidv4, ret.
  cbn [fst PlanStep.queue PlanStep.targetGames PlanStep.estimatedMinutes
       PlanStep.completed PlanStep.expectedRewards PlanStep.questProgress].
  rewrite Hqt, Hmin, Hceil.
  split; [assumption|]. split.
  { exists k. split; [assumption|]. split; [reflexivity|]. rewrite Hg. reflexivity. }
  split; [reflexivity|].
  assert (Hev : QueueOption.ev best = calculateQueueEV q winRate).
  { unfold evaluateQueueOption in Ho. cbv zeta in Ho.
    destruct (Qgt_bool _ rt); [discriminate|]. injection Ho as <-. reflexivity. }
  assert (Hk1 : 1 <= inject_Z k)
    by (change 1 with (inject_Z 1); rewrite <- Zle_Qle; lia).
  split.
  { rewrite Hev.
    destruct (queueEV_between q winRate Hp0 Hp1) as (_ & _ & Hgold & Hgems & Hpacks & _).
    destruct (Math_round_nonneg (expectedGold (calculateQueueEV q winRate) * inject_Z k))
      as (g & Hg0 & ->); [apply Qmult_le_0_compat; lra|].
    destruct (Math_round_nonneg (expectedGems (calculateQueueEV q winRate) * inject_Z k))
      as (m & Hm0 & ->); [apply Qmult_le_0_compat; lra|].
    destruct (Math_round_nonneg (expectedPacks (calculateQueueEV q winRate) * inject_Z k))
      as (c & Hc0 & ->); [apply Qmult_le_0_compat; lra|].
    exists g, m, c. repeat split; assumption. }
  assert (Hdata : Forall (fun e =>
                            In (QueueOption.questId e) (map Quest.id quests)
                            /\ 0 < QueueOption.progressAmount e
                            /\ 0 < JsMap.getOr0 qp (QueueOption.questId e))
                    (QueueOption.questProgress best)).
  { unfold evaluateQueueOption in Ho. cbv zeta in Ho.
    destruct (Qgt_bool _ rt); [discriminate|]. injection Ho as <-.
    cbn [QueueOption.questProgress].
    apply (scanQuest_entries q qp cq winRate _ quests quests).
    - intros quest e Hin Hid Hamount Htracked _. rewrite Hid.
      split; [apply in_map; assumption|]. split; [assumption|].
      rewrite <- Hid. assumption.
    - auto.
    - constructor. }
  apply Forall_map. revert Hdata. apply Forall_impl.
  intros e (Hin & Ha & Ht). cbn [questId progressAmount]. split; [assumption|].
  assert (0 < QueueOption.progressAmount e * inject_Z k)
    by (apply Qmult_lt_0_compat; lra).
  destruct (Math_min_spec (QueueOption.progressAmount e * inject_Z k)
              (JsMap.getOr0 qp (QueueOption.questId e))) as [[H' ->]|[H' ->]]; lra.
Qed.

(** Every step of the state a run ends in was there at the start or was
    made from the option found in some state of the run. *)
Lemma Run_steps_made
  (quests : list Quest.t) (winRate : Q) (settings : UserSettings)
  (st : LoopState) (w : World) (st' : LoopState) (w' : World) :
  Run quests winRate settings st w st' w' ->
  forall step,
    In step (steps st') ->
    In step (steps st)
    \/ exists qp cq rt best w0,
         findBestQueueOption quests qp cq rt winRate settings = Some best
         /\ step = fst (createPlanStep best qp cq w0).
Proof.
  induction 1 as [st w Hc|st w Hc Hb|st w best Hc Hb Hg
                  |st w best step0 w1 st' w' Hc Hb Hg Hs Hrun IH];
    intros step Hin; try (left; assumption).
  destruct (IH step Hin) as [Hold|Hnew]; [|right; assumption].
  cbn [steps] in Hold. apply in_app_or in Hold. destruct Hold as [Hold|[<-|[]]].
  - left. assumption.
  - right. exists (questProgress st), (completedQuests st), (remainingTime st), best, w.
    split; [assumption|]. rewrite Hs. reflexivity.
Qed.

(** The steps of a successful plan, one by one. *)
Lemma optimizePlan_steps_made
  (isUuid : string -> bool) (quests : list Quest.t) (timeBudget winRate : Q)
  (settings : option UserSettings) (w w' : World) (r : OptimizationResult)
  (p : OptimizedPlan.t) :
  optimizePlan isUuid quests timeBudget winRate settings w = Some (r, w') ->
  plan r = Some p ->
  0 <= winRate /\ winRate <= 1
  /\ forall step,
       In step (OptimizedPlan.steps p) ->
       exists qp cq rt best w0,
         findBestQueueOption
           (feasibleQuestsOf (activeQuestsOf quests) timeBudget winRate
              (settingsOrDefault settings))
           qp cq rt winRate (settingsOrDefault settings) = Some best
         /\ step = fst (createPlanStep best qp cq w0).
Proof.
  intros Hr Hp.
  destruct (optimizePlan_outcome isUuid quests timeBudget winRate settings w)
    as (r0 & w0 & Hr0 & Hs).
  rewrite Hr in Hr0. injection Hr0 as <- <-.
  assert (Hok := optimizePlan_plan_success isUuid quests timeBudget winRate settings
                   w w' r p Hr Hp).
  destruct (Hs Hok) as (Hv & _ & p0 & st & w1 & Hp0 & Hrun & Hsteps & _).
  rewrite Hp in Hp0. injection Hp0 as <-.
  apply validateOptimizationInput_success in Hv.
  destruct Hv as (_ & _ & [Hlo Hhi] & _).
  split; [lra|]. split; [lra|].
  intros step Hin. rewrite Hsteps in Hin.
  destruct (Run_steps_made _ _ _ _ _ _ _ Hrun step Hin) as [[]|H]. exact H.
Qed.

Lemma optimizePlan_steps_Forall
  (isUuid : string -> bool) (quests : list Quest.t) (timeBudget winRate : Q)
  (settings : option UserSettings) (w : World) (P : PlanStep.t -> Prop) :
  (0 <= winRate -> winRate <= 1 ->
   forall qp cq rt best w0,
     findBestQueueOption
       (feasibleQuestsOf (activeQuestsOf quests) timeBudget winRate
          (settingsOrDefault settings))
       qp cq rt winRate (settingsOrDefault settings) = Some best ->
     P (fst (createPlanStep best qp cq w0))) ->
  exists r w',
    optimizePlan isUuid quests timeBudget winRate settings w = Some (r, w')
    /\ forall p, plan r = Some p -> Forall P (OptimizedPlan.steps p).
Proof.
  intros HP.
  destruct (optimizePlan_outcome isUuid quests timeBudget winRate settings w)
    as (r & w' & Hr & _).
  exists r, w'. split; [assumption|]. intros p Hp.
  destruct (optimizePlan_steps_made isUuid quests timeBudget winRate settings w w' r p
              Hr Hp) as (Hp0 & Hp1 & Hsteps).
  apply Forall_forall. intros step Hin.
  destruct (Hsteps step Hin) as (qp & cq & rt & best & w0 & Hb & ->).
  apply (HP Hp0 Hp1 qp cq rt best w0 Hb).
Qed.

(** Every step of a plan [optimizePlan] returns plays one of the available
    queues: a preferred queue of the settings (of the default settings when
    none are given), or any queue when the list of preferred queues is
    empty. *)
Theorem optimizePlan_steps_use_available_queues
  (isUuid : string -> bool) (quests : list Quest.t) (timeBudget winRate : Q)
  (settings : option UserSettings) (w : World) :
  exists r w',
    optimizePlan isUuid quests timeBudget winRate settings w = Some (r, w')
    /\ forall p,
         plan r = Some p ->
         Forall (fun step =>
                   In (PlanStep.queue step)
                     (availableQueuesOf (preferredQueues (settingsOrDefault settings))))
           (OptimizedPlan.steps p).
Proof.
  apply optimizePlan_steps_Forall. intros Hp0 Hp1 qp cq rt best w0 Hb.
  apply (createPlanStep_of_best _ qp cq rt winRate _ best w0 Hp0 Hp1 Hb).
Qed.

(** Every step of a plan [optimizePlan] returns targets 1, 2 or 3 games,
    takes that many average games of its queue, is not completed, and
    expects whole, non-negative amounts of gold, gems and packs. *)
Theorem optimizePlan_steps_shape
  (isUuid : string -> bool) (quests : list Quest.t) (timeBudget winRate : Q)
  (settings : option UserSettings) (w : World) :
  exists r w',
    optimizePlan isUuid quests timeBudget winRate settings w = Some (r, w')
    /\ forall p,
         plan r = Some p ->
         Forall (fun step =>
                   (exists k : Z,
                      (1 <= k <= 3)%Z
                      /\ PlanStep.targetGames step = inject_Z k
                      /\ PlanStep.estimatedMinutes step
                         == inject_Z k
                            * averageGameLength
                                (getQueueRewardsWithFallback (PlanStep.queue step)))
                   /\ PlanStep.completed step = false
                   /\ exists g m k : Z,
                        (0 <= g)%Z /\ (0 <= m)%Z /\ (0 <= k)%Z
                        /\ PlanStep.expectedRewards step
                           = mkRewards (inject_Z g) (inject_Z m) (inject_Z k))
           (OptimizedPlan.steps p).
Proof.
  apply optimizePlan_steps_Forall. intros Hp0 Hp1 qp cq rt best w0 Hb.
  destruct (createPlanStep_of_best _ qp cq rt winRate _ best w0 Hp0 Hp1 Hb)
    as (_ & Hgames & Hdone & Hrew & _).
  split; [exact Hgames|]. split; [exact Hdone | exact Hrew].
Qed.

(** Every quest progress entry of every step of a plan [optimizePlan]
    returns names a quest of the input that is active and feasible, and
    records a positive amount. *)
Theorem optimizePlan_steps_progress
  (isUuid : string -> bool) (quests : list Quest.t) (timeBudget winRate : Q)
  (settings : option UserSettings) (w : World) :
  exists r w',
    optimizePlan isUuid quests timeBudget winRate settings w = Some (r, w')
    /\ forall p,
         plan r = Some p ->
         Forall (fun step =>
                   Forall (fun progress =>
                             0 < progressAmount progress
                             /\ exists quest,
                                  In quest quests
                                  /\ Quest.id quest = questId progress
                                  /\ 0 < Quest.remaining quest
                                  /\ canQuestBeCompletedInTime quest timeBudget winRate
                                       (preferredQueues (settingsOrDefault settings))
                                     = true)
                     (PlanStep.questProgress step))
           (OptimizedPlan.steps p).
Proof.
  apply optimizePlan_steps_Forall. intros Hp0 Hp1 qp cq rt best w0 Hb.
  destruct (createPlanStep_of_best _ qp cq rt winRate _ best w0 Hp0 Hp1 Hb)
    as (_ & _ & _ & _ & Hprog).
  revert Hprog. apply Forall_impl. intros progress [Hin Hpos].
  split; [assumption|].
  apply in_map_iff in Hin. destruct Hin as (quest & Hid & Hin).
  unfold feasibleQuestsOf in Hin. apply filter_In in Hin. destruct Hin as [Hin Hcan].
  unfold activeQuestsOf in Hin. apply filter_In in Hin. destruct Hin as [Hin Hrem].
  apply Qgt_bool_true in Hrem.
  exists quest. repeat split; assumption.
Qed.

(** ** Identifiers and dates of a plan *)

(** A run of the loop draws one identifier for each step it adds, in
    order, and does not read the clock. *)
Lemma Run_world
  (quests : list Quest.t) (winRate : Q) (settings : UserSettings)
  (st : LoopState) (w : World) (st' : LoopState) (w' : World) :
  Run quests winRate settings st w st' w' ->
  exists k,
    w' = mkWorld (uuidSource w) (uuidsDrawn w + k) (clockSource w) (clockReads w)
    /\ map PlanStep.id (steps st')
       = map PlanStep.id (steps st) ++ map (uuidSource w) (seq (uuidsDrawn w) k).
Proof.
  induction 1 as [st w Hc|st w Hc Hb|st w best Hc Hb Hg
                  |st w best step w1 st' w' Hc Hb Hg Hs Hrun IH];
    try (exists 0%nat; rewrite Nat.add_0_r, app_nil_r; destruct w; split; reflexivity).
  destruct IH as (k & Hw & Hids).
  unfold createPlanStep, bind, uuidv4, ret in Hs. injection Hs as <- <-.
  cbn [steps uuidSource uuidsDrawn clockSource clockReads] in Hw, Hids.
  exists (S k). split.
  - rewrite Hw. f_equal. lia.
  - rewrite Hids, map_app. cbn [map PlanStep.id seq]. rewrite <- app_assoc. reflexivity.
Qed.

Lemma optimizePlan_generates
  (isUuid : string -> bool) (quests : list Quest.t) (timeBudget winRate : Q)
  (settings : option UserSettings) (w w' : World) (r : OptimizationResult)
  (p : OptimizedPlan.t) :
  optimizePlan isUuid quests timeBudget winRate settings w = Some (r, w') ->
  plan r = Some p ->
  generateOptimizedPlan
    (feasibleQuestsOf (activeQuestsOf quests) timeBudget winRate
       (settingsOrDefault settings))
    timeBudget winRate (settingsOrDefault settings) w = Some (p, w')
  /\ fst (validateOptimizationInput isUuid quests timeBudget winRate settings) = true.
Proof.
  unfold optimizePlan. cbv zeta.
  destruct (fst (validateOptimizationInput isUuid quests timeBudget winRate settings));
    cbn [negb].
  2:{ intros [= <- _] Hp. discriminate. }
  destruct (length (activeQuestsOf quests) =? 0)%nat.
  { intros [= <- _] Hp. discriminate. }
  destruct (length (feasibleQuestsOf (activeQuestsOf quests) timeBudget winRate
                      (settingsOrDefault settings)) =? 0)%nat.
  { intros [= <- _] Hp. discriminate. }
  destruct (generateOptimizedPlan _ timeBudget winRate (settingsOrDefault settings) w)
    as [[p0 w0]|]; [|discriminate].
  intros [= <- <-] [= <-]. split; reflexivity.
Qed.

(** A successful call of [optimizePlan] draws one identifier for each step,
    in the order of the steps, then one for the plan, and reads the clock
    twice: first for [createdAt], then for [updatedAt]. *)
Theorem optimizePlan_draws_identifiers_in_order
  (isUuid : string -> bool) (quests : list Quest.t) (timeBudget winRate : Q)
  (settings : option UserSettings) (w : World) :
  exists r w',
    optimizePlan isUuid quests timeBudget winRate settings w = Some (r, w')
    /\ forall p,
         plan r = Some p ->
         let n := length (OptimizedPlan.steps p) in
         map PlanStep.id (OptimizedPlan.steps p)
         = map (uuidSource w) (seq (uuidsDrawn w) n)
         /\ OptimizedPlan.id p = uuidSource w (uuidsDrawn w + n)
         /\ OptimizedPlan.createdAt p = clockSource w (clockReads w)
         /\ OptimizedPlan.updatedAt p = clockSource w (S (clockReads w))
         /\ w' = mkWorld (uuidSource w) (S (uuidsDrawn w + n))
                   (clockSource w) (S (S (clockReads w))).
Proof.
  destruct (optimizePlan_outcome isUuid quests timeBudget winRate settings w)
    as (r & w' & Hr & _).
  exists r, w'. split; [assumption|]. intros p Hp n.
  destruct (optimizePlan_generates isUuid quests timeBudget winRate settings w w' r p
              Hr Hp) as [Hgen _].
  unfold generateOptimizedPlan in Hgen.
  destruct (greedyLoop _ _ winRate (settingsOrDefault settings) _ w)
    as [[st w1]|] eqn:Hloop; [|discriminate].
  apply greedyLoop_Run in Hloop. destruct (Run_world _ _ _ _ _ _ _ Hloop) as (k & Hw & Hids).
  cbn [steps initialState map app] in Hids.
  unfold uuidv4, newDate in Hgen. cbn in Hgen. injection Hgen as <- <-.
  subst n. cbn [OptimizedPlan.steps OptimizedPlan.id OptimizedPlan.createdAt
                OptimizedPlan.updatedAt].
  assert (Hk : length (steps st) = k).
  { rewrite <- (length_map PlanStep.id), Hids, length_map, length_seq. reflexivity. }
  rewrite Hk, Hids, Hw. cbn [uuidSource uuidsDrawn clockSource clockReads].
  repeat split.
Qed.

(** When the first eleven identifiers the generator hands out are distinct,
    the identifiers of the steps of a plan and of the plan itself are all
    distinct. *)
Theorem optimizePlan_identifiers_distinct
  (isUuid : string -> bool) (quests : list Quest.t) (timeBudget winRate : Q)
  (settings : option UserSettings) (w : World) :
  NoDup (map (uuidSource w) (seq (uuidsDrawn w) 11)) ->
  exists r w',
    optimizePlan isUuid quests timeBudget winRate settings w = Some (r, w')
    /\ forall p,
         plan r = Some p ->
         NoDup (map PlanStep.id (OptimizedPlan.steps p) ++ [OptimizedPlan.id p]).
Proof.
  intros Hnd.
  destruct (optimizePlan_outcome isUuid quests timeBudget winRate settings w)
    as (r & w' & Hr & _).
  exists r, w'. split; [assumption|]. intros p Hp.
  destruct (optimizePlan_generates isUuid quests timeBudget winRate settings w w' r p
              Hr Hp) as [Hgen Hv].
  unfold generateOptimizedPlan in Hgen.
  destruct (greedyLoop _ _ winRate (settingsOrDefault settings) _ w)
    as [[st w1]|] eqn:Hloop; [|discriminate].
  apply greedyLoop_Run in Hloop.
  destruct (Run_world _ _ _ _ _ _ _ Hloop) as (k & Hw & Hids).
  destruct (Run_invariant _ _ _ _ _ _ _ Hloop) as (_ & _ & _ & Hcap).
  cbn [steps initialState map app length remainingTime] in Hids, Hcap.
  apply validateOptimizationInput_success in Hv. destruct Hv as (_ & [_ HT] & _).
  assert (H10 := stepCap_180 timeBudget HT).
  assert (Hk : length (steps st) = k).
  { rewrite <- (length_map PlanStep.id), Hids, length_map, length_seq. reflexivity. }
  unfold uuidv4, newDate in Hgen. cbn in Hgen. injection Hgen as <- <-.
  cbn [OptimizedPlan.steps OptimizedPlan.id].
  rewrite Hids, Hw. cbn [uuidSource uuidsDrawn].
  replace (map (uuidSource w) (seq (uuidsDrawn w) k) ++ [uuidSource w (uuidsDrawn w + k)])
    with (map (uuidSource w) (seq (uuidsDrawn w) (S k)))
    by (rewrite seq_S, map_app; reflexivity).
  replace 11%nat with (S k + (10 - k))%nat in Hnd by lia.
  rewrite seq_app, map_app in Hnd. apply NoDup_app_remove_r in Hnd. assumption.
Qed.

Lemma optimizePlan_identifiers_distinct_witness :
  exists r w',
    optimizePlan uuidShaped mockQuests 60 (6 # 10) (Some createDefaultSettings)
      exampleWorld = Some (r, w')
    /\ forall p,
         plan r = Some p ->
         NoDup (map PlanStep.id (OptimizedPlan.steps p) ++ [OptimizedPlan.id p]).
Proof.
  apply (optimizePlan_identifiers_distinct uuidShaped mockQuests 60 (6 # 10)
           (Some createDefaultSettings) exampleWorld).
  cbn. repeat (constructor; [cbn; intuition discriminate|]). constructor.
Defined.

(** ** The completed quests of a plan *)

Lemma JsSet_has_In (s : JsSet.t) (k : string) : JsSet.has s k = true <-> In k s.
Proof.
  unfold JsSet.has. rewrite existsb_exists. split.
  - intros (x & Hin & Heq). apply String.eqb_eq in Heq. subst. assumption.
  - intros Hin. exists k. split; [assumption | apply String.eqb_refl].
Qed.

Lemma JsSet_add_spec (s : JsSet.t) (k : string) :
  (NoDup s -> NoDup (JsSet.add s k))
  /\ forall x, In x (JsSet.add s k) <-> In x s \/ x = k.
Proof.
  unfold JsSet.add. destruct (JsSet.has s k) eqn:E.
  - apply JsSet_has_In in E. split; [auto|].
    intros x. split; [auto | intros [H| ->]; assumption].
  - split.
    + intros Hnd. apply NoDup_app; [assumption | repeat constructor; intros [] |].
      intros x Hx [<-|[]]. apply JsSet_has_In in Hx. congruence.
    + intros x. rewrite in_app_iff. cbn. split; intros [H|H]; auto.
      * destruct H as [<-|[]]. auto.
Qed.

Lemma recordProgress_completed
  (entries : list QueueOption.progress) (tracked : JsMap.t * JsSet.t) :
  (NoDup (snd tracked) -> NoDup (snd (fold_left recordProgress entries tracked)))
  /\ forall x, In x (snd (fold_left recordProgress entries tracked)) ->
               In x (snd tracked) \/ In x (map QueueOption.questId entries).
Proof.
  revert tracked. induction entries as [|e entries IH]; intros tracked; cbn [fold_left].
  - split; [auto | intros x H; left; assumption].
  - destruct (IH (recordProgress tracked e)) as [IHnd IHin].
    assert (Hstep : (NoDup (snd tracked) -> NoDup (snd (recordProgress tracked e)))
                    /\ forall x, In x (snd (recordProgress tracked e)) ->
                                 In x (snd tracked) \/ x = QueueOption.questId e).
    { unfold recordProgress. cbv zeta. destruct (Qeq_bool _ 0); cbn [snd].
      - destruct (JsSet_add_spec (snd tracked) (QueueOption.questId e)) as [Hnd Hin].
        split; [assumption | intros x Hx; apply Hin; assumption].
      - split; [auto | intros x Hx; left; assumption]. }
    destruct Hstep as [Hnd Hin]. split.
    + intros H. apply IHnd, Hnd, H.
    + intros x Hx. cbn [map]. destruct (IHin x Hx) as [H|H].
      * destruct (Hin x H) as [H'| ->]; [left; assumption | right; left; reflexivity].
      * right. right. assumption.
Qed.

Lemma createPlanStep_progress_ids
  (best : QueueOption.t) (qp : JsMap.t) (cq : JsSet.t) (w : World) :
  map questId (PlanStep.questProgress (fst (createPlanStep best qp cq w)))
  = map QueueOption.questId (QueueOption.questProgress best).
Proof.
  unfold createPlanStep, bind, uuidv4, ret. cbn [fst PlanStep.questProgress].
  rewrite map_map. reflexivity.
Qed.

(** A run keeps the completed quests free of duplicates, and every quest it
    adds to them is advanced by one of the steps it adds. *)
Lemma Run_completed
  (quests : list Quest.t) (winRate : Q) (settings : UserSettings)
  (st : LoopState) (w : World) (st' : LoopState) (w' : World) :
  Run quests winRate settings st w st' w' ->
  (NoDup (completedQuests st) -> NoDup (completedQuests st'))
  /\ forall x, In x (completedQuests st') ->
               In x (completedQuests st)
               \/ exists step, In step (skipn (length (steps st)) (steps st'))
                               /\ In x (map questId (PlanStep.questProgress step)).
Proof.
  induction 1 as [st w Hc|st w Hc Hb|st w best Hc Hb Hg
                  |st w best step w1 st' w' Hc Hb Hg Hs Hrun IH];
    try (split; [auto | intros x Hx; left; assumption]).
  destruct IH as [IHnd IHin]. cbn [completedQuests steps] in IHnd, IHin.
  destruct (recordProgress_completed (QueueOption.questProgress best)
              (questProgress st, completedQuests st)) as [Hnd Hin].
  cbn [snd] in Hnd, Hin.
  destruct (Run_world _ _ _ _ _ _ _ Hrun) as (k & _ & Hids).
  cbn [steps] in Hids.
  assert (Hpre : exists more, steps st' = (steps st ++ [step]) ++ more).
  { clear -Hrun. 
    assert (G : forall a wa b wb, Run quests winRate settings a wa b wb ->
                                  exists more, steps b = steps a ++ more).
    { induction 1 as [| | |? ? ? ? ? ? ? _ _ _ _ _ IH'];
        try (exists []; rewrite app_nil_r; reflexivity).
      destruct IH' as (more & Hm). cbn [steps] in Hm.
      eexists. rewrite Hm, <- app_assoc. reflexivity. }
    destruct (G _ _ _ _ Hrun) as (more & Hm). cbn [steps] in Hm. exists more. exact Hm. }
  destruct Hpre as (more & Hmore).
  split; [intros H; apply IHnd, Hnd, H|].
  intros x Hx. destruct (IHin x Hx) as [H|(s & Hs' & Hxs)].
  - destruct (Hin x H) as [H'|H']; [left; assumption|].
    right. exists step. split.
    + rewrite Hmore, <- app_assoc, skipn_app, skipn_all, Nat.sub_diag. cbn. left. reflexivity.
    + assert (E := createPlanStep_progress_ids best (questProgress st) (completedQuests st) w).
      rewrite Hs in E. cbn [fst] in E. rewrite E. assumption.
  - right. exists s. split; [|assumption].
    rewrite Hmore in Hs' |- *. rewrite length_app in Hs'. cbn [length] in Hs'.
    rewrite skipn_app in Hs'. rewrite skipn_all2 in Hs' by (rewrite length_app; cbn; lia).
    rewrite length_app in Hs'. cbn [length app] in Hs'.
    replace (length (steps st) + 1 - (length (steps st) + 1))%nat with 0%nat in Hs' by lia.
    cbn [skipn] in Hs'.
    rewrite <- app_assoc, skipn_app, skipn_all, Nat.sub_diag. cbn [skipn app].
    right. assumption.
Qed.

(** The completed quests of a plan [optimizePlan] returns hold no quest
    twice, and each of them is advanced by a step of the plan. *)
Theorem optimizePlan_questsCompleted
  (isUuid : string -> bool) (quests : list Quest.t) (timeBudget winRate : Q)
  (settings : option UserSettings) (w : World) :
  exists r w',
    optimizePlan isUuid quests timeBudget winRate settings w = Some (r, w')
    /\ forall p,
         plan r = Some p ->
         NoDup (OptimizedPlan.questsCompleted p)
         /\ forall id,
              In id (OptimizedPlan.questsCompleted p) ->
              exists step,
                In step (OptimizedPlan.steps p)
                /\ In id (map questId (PlanStep.questProgress step)).
Proof.
  destruct (optimizePlan_outcome isUuid quests timeBudget winRate settings w)
    as (r & w' & Hr & Hs).
  exists r, w'. split; [assumption|]. intros p Hp.
  assert (Hok := optimizePlan_plan_success isUuid quests timeBudget winRate settings
                   w w' r p Hr Hp).
  destruct (Hs Hok) as (_ & _ & p0 & st & w1 & Hp0 & Hrun & Hsteps & _ & _ & Hcq & _).
  rewrite Hp in Hp0. injection Hp0 as <-.
  destruct (Run_completed _ _ _ _ _ _ _ Hrun) as [Hnd Hin].
  cbn [completedQuests steps initialState length skipn] in Hnd, Hin.
  rewrite Hcq, Hsteps. split; [apply Hnd; constructor|].
  intros id Hid. destruct (Hin id Hid) as [[]|H]. exact H.
Qed.

(** ** Marking steps, again *)

(** Marking the same step twice: the second flag wins, and the result is
    what the second marking alone would give. *)
Theorem updatePlanProgress_last_wins
  (plan : OptimizedPlan.t) (stepId : string) (first second : bool) (w1 w2 : World) :
  fst (updatePlanProgress (fst (updatePlanProgress plan stepId first w1))
         stepId second w2)
  = fst (updatePlanProgress plan stepId second w2).
Proof.
  unfold updatePlanProgress, bind, newDate, ret.
  cbn [fst OptimizedPlan.id OptimizedPlan.steps OptimizedPlan.totalEstimatedMinutes
       OptimizedPlan.totalExpectedRewards OptimizedPlan.questsCompleted
       OptimizedPlan.timeBudget OptimizedPlan.winRate OptimizedPlan.createdAt].
  f_equal. rewrite map_map. apply map_ext. intros step.
  destruct (String.eqb (PlanStep.id step) stepId) eqn:E; cbn [PlanStep.id].
  - rewrite E. reflexivity.
  - rewrite E. reflexivity.
Qed.

(** Marking leaves the steps as they are when every step with that
    identifier already has the flag, so in particular when no step has the
    identifier: only [updatedAt] changes. *)
Theorem updatePlanProgress_same_flag
  (plan : OptimizedPlan.t) (stepId : string) (flag : bool) (w : World) :
  (forall step, In step (OptimizedPlan.steps plan) ->
                PlanStep.id step = stepId -> PlanStep.completed step = flag) ->
  fst (updatePlanProgress plan stepId flag w)
  = OptimizedPlan.mk (OptimizedPlan.id plan) (OptimizedPlan.steps plan)
      (OptimizedPlan.totalEstimatedMinutes plan)
      (OptimizedPlan.totalExpectedRewards plan)
      (OptimizedPlan.questsCompleted plan)
      (OptimizedPlan.timeBudget plan) (OptimizedPlan.winRate plan)
      (OptimizedPlan.createdAt plan) (clockSource w (clockReads w)).
Proof.
  intros Hflag. unfold updatePlanProgress, bind, newDate, ret. cbn [fst].
  f_equal. rewrite <- (map_id (OptimizedPlan.steps plan)) at 2.
  apply map_ext_in. intros step Hin.
  destruct (String.eqb (PlanStep.id step) stepId) eqn:E; [|reflexivity].
  apply String.eqb_eq in E. rewrite <- (Hflag step Hin E). destruct step; reflexivity.
Qed.

Lemma updatePlanProgress_same_flag_witness :
  fst (updatePlanProgress samplePlan "no-such-step" true laterWorld)
  = OptimizedPlan.mk (OptimizedPlan.id samplePlan) (OptimizedPlan.steps samplePlan)
      (OptimizedPlan.totalEstimatedMinutes samplePlan)
      (OptimizedPlan.totalExpectedRewards samplePlan)
      (OptimizedPlan.questsCompleted samplePlan)
      (OptimizedPlan.timeBudget samplePlan) (OptimizedPlan.winRate samplePlan)
      (OptimizedPlan.createdAt samplePlan) (clockSource laterWorld (clockReads laterWorld)).
Proof.
  apply (updatePlanProgress_same_flag samplePlan "no-such-step" true laterWorld).
  intros step [<-|[<-|[]]]; cbn; discriminate.
Defined.

(** Marking a step that is not completed and then unmarking it gives back
    the steps of the plan. *)
Theorem updatePlanProgress_mark_unmark
  (plan : OptimizedPlan.t) (stepId : string) (w1 w2 : World) :
  (forall step, In step (OptimizedPlan.steps plan) ->
                PlanStep.id step = stepId -> PlanStep.completed step = false) ->
  OptimizedPlan.steps
    (fst (updatePlanProgress (fst (updatePlanProgress plan stepId true w1))
            stepId false w2))
  = OptimizedPlan.steps plan.
Proof.
  intros Hflag.
  unfold updatePlanProgress, bind, newDate, ret. cbn [fst OptimizedPlan.steps].
  rewrite map_map. rewrite <- (map_id (OptimizedPlan.steps plan)) at 2.
  apply map_ext_in. intros step Hin.
  destruct (String.eqb (PlanStep.id step) stepId) eqn:E; cbn [PlanStep.id]; rewrite E.
  - apply String.eqb_eq in E. cbn. rewrite <- (Hflag step Hin E).
    destruct step; reflexivity.
  - reflexivity.
Qed.

Lemma updatePlanProgress_mark_unmark_witness :
  OptimizedPlan.steps
    (fst (updatePlanProgress
            (fst (updatePlanProgress samplePlan (exampleUuid 1 0) true laterWorld))
            (exampleUuid 1 0) false laterWorld))
  = OptimizedPlan.steps samplePlan.
Proof.
  apply (updatePlanProgress_mark_unmark samplePlan (exampleUuid 1 0) laterWorld laterWorld).
  intros step [<-|[<-|[]]] _; reflexivity.
Defined.

(** ** Recalculating a fresh plan *)

Lemma filter_none {A} (f : A -> bool) (l : list A) :
  Forall (fun x => f x = false) l -> filter f l = [].
Proof.
  induction 1 as [|x l Hx _ IH]; [reflexivity|]. cbn. rewrite Hx. assumption.
Qed.

(** Recalculating a plan that [optimizePlan] has just returned, before any
    step is marked, is a call of [optimizePlan] on the updated quests with
    the plan's win rate and its whole time budget (the budget less the 0
    minutes of completed steps). *)
Theorem recalculatePlan_of_fresh_plan
  (isUuid : string -> bool) (quests : list Quest.t) (timeBudget winRate : Q)
  (settings : option UserSettings) (w w' : World) (r : OptimizationResult)
  (p : OptimizedPlan.t)
  (updatedQuests : list Quest.t) (settings' : option UserSettings) (w2 : World) :
  optimizePlan isUuid quests timeBudget winRate settings w = Some (r, w') ->
  plan r = Some p ->
  recalculatePlan isUuid p updatedQuests settings' w2
  = optimizePlan isUuid updatedQuests (timeBudget - 0) winRate settings' w2.
Proof.
  intros Hr Hp.
  assert (Hshape : Forall (fun step => PlanStep.completed step = false)
                     (OptimizedPlan.steps p)).
  { destruct (optimizePlan_steps_Forall isUuid quests timeBudget winRate settings w
                (fun step => PlanStep.completed step = false)) as (r0 & w0 & Hr0 & H).
    - intros Hp0 Hp1 qp cq rt best w0 Hb. reflexivity.
    - rewrite Hr in Hr0. injection Hr0 as <- <-. apply (H p Hp). }
  destruct (optimizePlan_generates isUuid quests timeBudget winRate settings w w' r p
              Hr Hp) as [Hgen Hv].
  apply validateOptimizationInput_success in Hv. destruct Hv as (_ & [HT _] & _).
  assert (Hfields : OptimizedPlan.timeBudget p = timeBudget
                    /\ OptimizedPlan.winRate p = winRate).
  { destruct (generateOptimizedPlan_returns
                (feasibleQuestsOf (activeQuestsOf quests) timeBudget winRate
                   (settingsOrDefault settings))
                timeBudget winRate (settingsOrDefault settings) w)
      as (st & w1 & p1 & w1' & _ & Hgen1 & _ & _ & _ & _ & Hb & Hw).
    rewrite Hgen in Hgen1. injection Hgen1 as <- <-. split; assumption. }
  destruct Hfields as [Hb Hw].
  unfold recalculatePlan. cbv zeta.
  rewrite filter_none.
  2:{ exact Hshape. }
  cbn [fold_left]. rewrite Hb, Hw.
  assert (E1 : Qle_bool (timeBudget - 0) 0 = false) by (apply Qle_bool_false; lra).
  assert (E2 : Qlt_bool (timeBudget - 0) 15 = false) by (apply Qlt_bool_false; lra).
  rewrite E1, E2. reflexivity.
Qed.

Lemma recalculatePlan_of_fresh_plan_witness :
  recalculatePlan uuidShaped samplePlan mockQuests None laterWorld
  = optimizePlan uuidShaped mockQuests (60 - 0) (6 # 10) None laterWorld.
Proof.
  destruct (optimizePlan uuidShaped mockQuests 60 (6 # 10) (Some createDefaultSettings)
              exampleWorld) as [[r w']|] eqn:E.
  - apply (recalculatePlan_of_fresh_plan uuidShaped mockQuests 60 (6 # 10)
             (Some createDefaultSettings) exampleWorld w' r samplePlan
             mockQuests None laterWorld E).
    assert (H : option_map (fun rw => plan (fst rw)) (Some (r, w')) = Some (Some samplePlan))
      by (rewrite <- E; vm_compute; reflexivity).
    cbn in H. injection H as H. exact H.
  - exfalso.
    assert (H : option_map (fun _ => tt)
                  (optimizePlan uuidShaped mockQuests 60 (6 # 10)
                     (Some createDefaultSettings) exampleWorld) = Some tt)
      by (vm_compute; reflexivity).
    rewrite E in H. discriminate.
Defined.

(** ** The validators *)

(** [isValidWinRate] accepts exactly the win rates the optimizer's schema
    accepts; [isValidTimeBudget] accepts exactly the whole numbers among the
    time budgets that schema accepts. *)
Theorem validators_and_optimizer_schema (value : Q) :
  (isValidWinRate value = true
   <-> checkRange [Key "winRate"] (3 # 10) (8 # 10) value = [])
  /\ (isValidTimeBudget value = true
      <-> checkRange [Key "timeBudget"] 15 180 value = []
          /\ exists z : Z, value == inject_Z z).
Proof.
  split.
  - rewrite checkRange_nil. unfold isValidWinRate.
    rewrite andb_true_iff, !Qle_bool_iff. tauto.
  - rewrite checkRange_nil. unfold isValidTimeBudget, Number_isInteger.
    rewrite !andb_true_iff, !Qle_bool_iff. split.
    + intros [[Hi H1] H2]. split; [tauto|].
      exists (Qfloor value). apply Qeq_bool_eq in Hi. symmetry. assumption.
    + intros [[H1 H2] [z Hz]]. split; [split|]; try assumption.
      apply Qeq_bool_iff. rewrite Hz at 2.
      rewrite (Qfloor_comp _ _ Hz), Qfloor_Z. reflexivity.
Qed.

(** [validateEVInput] succeeds exactly when the win rate lies in [0,1] and
    the quest, if one is given, has no negative remaining count. *)
Theorem validateEVInput_success
  (queueType : QueueType) (winRate : Q) (quest : option EVQuestInput) :
  fst (validateEVInput queueType winRate quest) = true
  <-> (0 <= winRate /\ winRate <= 1)
      /\ forall q, quest = Some q -> 0 <= inputRemaining q.
Proof.
  unfold validateEVInput, EVCalculationInputSchema_issues.
  rewrite <- (checkRange_nil [Key "winRate"] 0 1 winRate).
  destruct (checkRange [Key "winRate"] 0 1 winRate) as [|i l]; cbn [app].
  2:{ cbn. split; [discriminate | intros [H _]; discriminate]. }
  destruct quest as [q|].
  - assert (H := checkMin_nil [Key "quest"; Key "remaining"] 0 (inputRemaining q)).
    destruct (checkMin [Key "quest"; Key "remaining"] 0 (inputRemaining q)); cbn.
    + split; [|reflexivity]. intros _. split; [reflexivity|].
      intros q' [= <-]. apply H. reflexivity.
    + split; [discriminate|]. intros [_ Hq].
      specialize (Hq q eq_refl). apply H in Hq. discriminate.
  - cbn. split; [|reflexivity]. intros _. split; [reflexivity | discriminate].
Qed.

(** [isValidQueueType] accepts exactly the ten identifiers of the queue
    types, and each identifier names one queue type only. *)
Theorem isValidQueueType_spec (s : string) :
  (isValidQueueType s = true <-> exists q, s = queueTypeValue q)
  /\ forall q1 q2, queueTypeValue q1 = queueTypeValue q2 -> q1 = q2.
Proof.
  split.
  - unfold isValidQueueType. rewrite existsb_exists. split.
    + intros (x & Hin & Heq). apply String.eqb_eq in Heq. subst x.
      apply in_map_iff in Hin. destruct Hin as (q & Hq & _). exists q. congruence.
    + intros (q & ->). exists (queueTypeValue q). split; [|apply String.eqb_refl].
      apply in_map. destruct q; cbn; tauto.
  - intros q1 q2. destruct q1, q2; cbn; intros H; try reflexivity; discriminate.
Qed.

Lemma matchesClasses_length (classes : list (ascii -> bool)) (s : string) :
  matchesClasses classes s = true -> String.length s = length classes.
Proof.
  revert s. induction classes as [|c classes IH]; intros [|a s]; cbn; try discriminate.
  - reflexivity.
  - intros H. apply andb_true_iff in H. destruct H as [_ H]. rewrite (IH s H). reflexivity.
Qed.

Lemma matchesClasses_nth (classes : list (ascii -> bool)) (s : string) (i : nat)
  (class : ascii -> bool) :
  matchesClasses classes s = true ->
  nth_error classes i = Some class ->
  exists c, String.get i s = Some c /\ class c = true.
Proof.
  revert s i. induction classes as [|c0 classes IH]; intros [|a s] i; cbn;
    try discriminate.
  - intros _ H. destruct i; discriminate.
  - intros H Hi. apply andb_true_iff in H. destruct H as [Ha H].
    destruct i as [|i]; cbn in Hi.
    + injection Hi as <-. exists a. split; [reflexivity | assumption].
    + cbn. apply (IH s i H Hi).
Qed.

(** A string [isValidUUID] accepts has 36 characters, hyphens at the
    positions 8, 13, 18 and 23, and a version digit from 1 to 5 at
    position 14. *)
Theorem isValidUUID_shape (value : string) :
  isValidUUID value = true ->
  String.length value = 36%nat
  /\ String.get 8 value = Some "-"%char
  /\ String.get 13 value = Some "-"%char
  /\ String.get 18 value = Some "-"%char
  /\ String.get 23 value = Some "-"%char
  /\ exists v, String.get 14 value = Some v
               /\ In v ["1"; "2"; "3"; "4"; "5"]%char.
Proof.
  intros H. unfold isValidUUID in H.
  split; [apply (matchesClasses_length _ _ H)|].
  assert (Hh : forall i, nth_error uuidRegex i = Some isHyphen ->
                         String.get i value = Some "-"%char).
  { intros i Hi. destruct (matchesClasses_nth _ _ i isHyphen H Hi) as (c & Hc & Hy).
    unfold isHyphen in Hy. apply Ascii.eqb_eq in Hy. subst c. assumption. }
  repeat (split; [apply Hh; reflexivity|]).
  destruct (matchesClasses_nth _ _ 14 isVersionChar H eq_refl) as (v & Hv & Hc).
  exists v. split; [assumption|].
  unfold isVersionChar in Hc. cbv zeta in Hc.
  apply andb_true_iff in Hc. destruct Hc as [H1 H2].
  apply Nat.leb_le in H1, H2.
  rewrite <- (ascii_nat_embedding v).
  assert (Hn : (nat_of_ascii v = 49 \/ nat_of_ascii v = 50 \/ nat_of_ascii v = 51
                \/ nat_of_ascii v = 52 \/ nat_of_ascii v = 53)%nat) by lia.
  destruct Hn as [E|[E|[E|[E|E]]]]; rewrite E; cbn; tauto.
Qed.

Lemma isValidUUID_shape_witness :
  String.length (Quest.id winQuest) = 36%nat
  /\ String.get 8 (Quest.id winQuest) = Some "-"%char
  /\ String.get 13 (Quest.id winQuest) = Some "-"%char
  /\ String.get 18 (Quest.id winQuest) = Some "-"%char
  /\ String.get 23 (Quest.id winQuest) = Some "-"%char
  /\ exists v, String.get 14 (Quest.id winQuest) = Some v
               /\ In v ["1"; "2"; "3"; "4"; "5"]%char.
Proof.
  apply (isValidUUID_shape (Quest.id winQuest)). vm_compute. reflexivity.
Defined.
